(** * NHDNetwork: flow-network tracing, outlet discovery, lake connectivity
      and interlake erasable regions.

    A shallow embedding of [lagosGIS/NHDNetwork.py].  The class instance is a
    record that is threaded through every method; the geodatabase tables the
    methods read through [arcpy.da.SearchCursor] are fields of the record
    [geodatabase].  Python [defaultdict(list)] objects are finite maps whose
    read inserts the missing key; Python sets are [gset]s and the list built
    from a set is [elements] of it (Python leaves that order unspecified, so
    every statement below compares traces as sets). *)

From Stdlib Require Import QArith.QArith_base.
From stdpp Require Import gmap strings list fin_maps fin_sets.

Close Scope Q_scope.

Open Scope string_scope.
Open Scope list_scope.
Open Scope nat_scope.

(** ** The geodatabase (external tables) *)

Record flowline_row := {
  Permanent_Identifier : string;
  WBArea_Permanent_Identifier : option string;
  FCode : Z
}.

Record waterbody_row := {
  wb_Permanent_Identifier : string;
  AreaSqKm : Q;
  wb_FCode : Z
}.

Record geodatabase := {
  NHDFlow : list (string * string);      (* (from_id, to_id) *)
  NHDFlowline : list flowline_row;
  NHDWaterbody : list waterbody_row;
  lagos_pop : option (list string)       (* rows at lagos_pop_path, if it exists *)
}.

Inductive outlets_kind := primary | secondary.

#[global] Instance outlets_kind_eq_dec : EqDecision outlets_kind.
Proof. solve_decision. Defined.

(** ** The instance *)

Record NHDNetwork := {
  gdb : geodatabase;
  waterbody_start_ids : list string;
  flowline_start_ids : list string;
  flowline_stop_ids : list string;
  waterbody_stop_ids : list string;
  tenha_waterbody_ids : list string;
  upstream : gmap string (list string);
  downstream : gmap string (list string);
  flowline_waterbody : gmap string string;
  waterbody_flowline : gmap string (list string);
  intermit_flowline_ids : gset string;
  inlets : list string;
  outlets : list string;
  outlets_type : option outlets_kind;
  exclude_intermittent_flow : bool;
  lakes_areas : gmap string Q
}.

(** [NHDNetwork.__init__] *)
Definition init (nhd_gdb : geodatabase) : NHDNetwork := {|
  gdb := nhd_gdb;
  waterbody_start_ids := [];
  flowline_start_ids := [];
  flowline_stop_ids := [];
  waterbody_stop_ids := [];
  tenha_waterbody_ids := [];
  upstream := ∅;
  downstream := ∅;
  flowline_waterbody := ∅;
  waterbody_flowline := ∅;
  intermit_flowline_ids := ∅;
  inlets := [];
  outlets := [];
  outlets_type := None;
  exclude_intermittent_flow := false;
  lakes_areas := ∅
|}.

(** Attribute assignment [self.f = v]. *)
Definition set_waterbody_start_ids (v : list string) (self : NHDNetwork) :=
  {| gdb := gdb self; waterbody_start_ids := v;
     flowline_start_ids := flowline_start_ids self;
     flowline_stop_ids := flowline_stop_ids self;
     waterbody_stop_ids := waterbody_stop_ids self;
     tenha_waterbody_ids := tenha_waterbody_ids self;
     upstream := upstream self; downstream := downstream self;
     flowline_waterbody := flowline_waterbody self;
     waterbody_flowline := waterbody_flowline self;
     intermit_flowline_ids := intermit_flowline_ids self;
     inlets := inlets self; outlets := outlets self;
     outlets_type := outlets_type self;
     exclude_intermittent_flow := exclude_intermittent_flow self;
     lakes_areas := lakes_areas self |}.

Definition set_flowline_start_ids (v : list string) (self : NHDNetwork) :=
  {| gdb := gdb self; waterbody_start_ids := waterbody_start_ids self;
     flowline_start_ids := v;
     flowline_stop_ids := flowline_stop_ids self;
     waterbody_stop_ids := waterbody_stop_ids self;
     tenha_waterbody_ids := tenha_waterbody_ids self;
     upstream := upstream self; downstream := downstream self;
     flowline_waterbody := flowline_waterbody self;
     waterbody_flowline := waterbody_flowline self;
     intermit_flowline_ids := intermit_flowline_ids self;
     inlets := inlets self; outlets := outlets self;
     outlets_type := outlets_type self;
     exclude_intermittent_flow := exclude_intermittent_flow self;
     lakes_areas := lakes_areas self |}.

Definition set_flowline_stop_ids (v : list string) (self : NHDNetwork) :=
  {| gdb := gdb self; waterbody_start_ids := waterbody_start_ids self;
     flowline_start_ids := flowline_start_ids self;
     flowline_stop_ids := v;
     waterbody_stop_ids := waterbody_stop_ids self;
     tenha_waterbody_ids := tenha_waterbody_ids self;
     upstream := upstream self; downstream := downstream self;
     flowline_waterbody := flowline_waterbody self;
     waterbody_flowline := waterbody_flowline self;
     intermit_flowline_ids := intermit_flowline_ids self;
     inlets := inlets self; outlets := outlets self;
     outlets_type := outlets_type self;
     exclude_intermittent_flow := exclude_intermittent_flow self;
     lakes_areas := lakes_areas self |}.

Definition set_waterbody_stop_ids (v : list string) (self : NHDNetwork) :=
  {| gdb := gdb self; waterbody_start_ids := waterbody_start_ids self;
     flowline_start_ids := flowline_start_ids self;
     flowline_stop_ids := flowline_stop_ids self;
     waterbody_stop_ids := v;
     tenha_waterbody_ids := tenha_waterbody_ids self;
     upstream := upstream self; downstream := downstream self;
     flowline_waterbody := flowline_waterbody self;
     waterbody_flowline := waterbody_flowline self;
     intermit_flowline_ids := intermit_flowline_ids self;
     inlets := inlets self; outlets := outlets self;
     outlets_type := outlets_type self;
     exclude_intermittent_flow := exclude_intermittent_flow self;
     lakes_areas := lakes_areas self |}.

Definition set_tenha_waterbody_ids (v : list string) (self : NHDNetwork) :=
  {| gdb := gdb self; waterbody_start_ids := waterbody_start_ids self;
     flowline_start_ids := flowline_start_ids self;
     flowline_stop_ids := flowline_stop_ids self;
     waterbody_stop_ids := waterbody_stop_ids self;
     tenha_waterbody_ids := v;
     upstream := upstream self; downstream := downstream self;
     flowline_waterbody := flowline_waterbody self;
     waterbody_flowline := waterbody_flowline self;
     intermit_flowline_ids := intermit_flowline_ids self;
     inlets := inlets self; outlets := outlets self;
     outlets_type := outlets_type self;
     exclude_intermittent_flow := exclude_intermittent_flow self;
     lakes_areas := lakes_areas self |}.

Definition set_upstream (v : gmap string (list string)) (self : NHDNetwork) :=
  {| gdb := gdb self; waterbody_start_ids := waterbody_start_ids self;
     flowline_start_ids := flowline_start_ids self;
     flowline_stop_ids := flowline_stop_ids self;
     waterbody_stop_ids := waterbody_stop_ids self;
     tenha_waterbody_ids := tenha_waterbody_ids self;
     upstream := v; downstream := downstream self;
     flowline_waterbody := flowline_waterbody self;
     waterbody_flowline := waterbody_flowline self;
     intermit_flowline_ids := intermit_flowline_ids self;
     inlets := inlets self; outlets := outlets self;
     outlets_type := outlets_type self;
     exclude_intermittent_flow := exclude_intermittent_flow self;
     lakes_areas := lakes_areas self |}.

Definition set_downstream (v : gmap string (list string)) (self : NHDNetwork) :=
  {| gdb := gdb self; waterbody_start_ids := waterbody_start_ids self;
     flowline_start_ids := flowline_start_ids self;
     flowline_stop_ids := flowline_stop_ids self;
     waterbody_stop_ids := waterbody_stop_ids self;
     tenha_waterbody_ids := tenha_waterbody_ids self;
     upstream := upstream self; downstream := v;
     flowline_waterbody := flowline_waterbody self;
     waterbody_flowline := waterbody_flowline self;
     intermit_flowline_ids := intermit_flowline_ids self;
     inlets := inlets self; outlets := outlets self;
     outlets_type := outlets_type self;
     exclude_intermittent_flow := exclude_intermittent_flow self;
     lakes_areas := lakes_areas self |}.

Definition set_flowline_waterbody (v : gmap string string) (self : NHDNetwork) :=
  {| gdb := gdb self; waterbody_start_ids := waterbody_start_ids self;
     flowline_start_ids := flowline_start_ids self;
     flowline_stop_ids := flowline_stop_ids self;
     waterbody_stop_ids := waterbody_stop_ids self;
     tenha_waterbody_ids := tenha_waterbody_ids self;
     upstream := upstream self; downstream := downstream self;
     flowline_waterbody := v;
     waterbody_flowline := waterbody_flowline self;
     intermit_flowline_ids := intermit_flowline_ids self;
     inlets := inlets self; outlets := outlets self;
     outlets_type := outlets_type self;
     exclude_intermittent_flow := exclude_intermittent_flow self;
     lakes_areas := lakes_areas self |}.

Definition set_waterbody_flowline (v : gmap string (list string)) (self : NHDNetwork) :=
  {| gdb := gdb self; waterbody_start_ids := waterbody_start_ids self;
     flowline_start_ids := flowline_start_ids self;
     flowline_stop_ids := flowline_stop_ids self;
     waterbody_stop_ids := waterbody_stop_ids self;
     tenha_waterbody_ids := tenha_waterbody_ids self;
     upstream := upstream self; downstream := downstream self;
     flowline_waterbody := flowline_waterbody self;
     waterbody_flowline := v;
     intermit_flowline_ids := intermit_flowline_ids self;
     inlets := inlets self; outlets := outlets self;
     outlets_type := outlets_type self;
     exclude_intermittent_flow := exclude_intermittent_flow self;
     lakes_areas := lakes_areas self |}.

Definition set_intermit_flowline_ids (v : gset string) (self : NHDNetwork) :=
  {| gdb := gdb self; waterbody_start_ids := waterbody_start_ids self;
     flowline_start_ids := flowline_start_ids self;
     flowline_stop_ids := flowline_stop_ids self;
     waterbody_stop_ids := waterbody_stop_ids self;
     tenha_waterbody_ids := tenha_waterbody_ids self;
     upstream := upstream self; downstream := downstream self;
     flowline_waterbody := flowline_waterbody self;
     waterbody_flowline := waterbody_flowline self;
     intermit_flowline_ids := v;
     inlets := inlets self; outlets := outlets self;
     outlets_type := outlets_type self;
     exclude_intermittent_flow := exclude_intermittent_flow self;
     lakes_areas := lakes_areas self |}.

Definition set_inlets (v : list string) (self : NHDNetwork) :=
  {| gdb := gdb self; waterbody_start_ids := waterbody_start_ids self;
     flowline_start_ids := flowline_start_ids self;
     flowline_stop_ids := flowline_stop_ids self;
     waterbody_stop_ids := waterbody_stop_ids self;
     tenha_waterbody_ids := tenha_waterbody_ids self;
     upstream := upstream self; downstream := downstream self;
     flowline_waterbody := flowline_waterbody self;
     waterbody_flowline := waterbody_flowline self;
     intermit_flowline_ids := intermit_flowline_ids self;
     inlets := v; outlets := outlets self;
     outlets_type := outlets_type self;
     exclude_intermittent_flow := exclude_intermittent_flow self;
     lakes_areas := lakes_areas self |}.

Definition set_outlets (v : list string) (self : NHDNetwork) :=
  {| gdb := gdb self; waterbody_start_ids := waterbody_start_ids self;
     flowline_start_ids := flowline_start_ids self;
     flowline_stop_ids := flowline_stop_ids self;
     waterbody_stop_ids := waterbody_stop_ids self;
     tenha_waterbody_ids := tenha_waterbody_ids self;
     upstream := upstream self; downstream := downstream self;
     flowline_waterbody := flowline_waterbody self;
     waterbody_flowline := waterbody_flowline self;
     intermit_flowline_ids := intermit_flowline_ids self;
     inlets := inlets self; outlets := v;
     outlets_type := outlets_type self;
     exclude_intermittent_flow := exclude_intermittent_flow self;
     lakes_areas := lakes_areas self |}.

Definition set_outlets_type (v : option outlets_kind) (self : NHDNetwork) :=
  {| gdb := gdb self; waterbody_start_ids := waterbody_start_ids self;
     flowline_start_ids := flowline_start_ids self;
     flowline_stop_ids := flowline_stop_ids self;
     waterbody_stop_ids := waterbody_stop_ids self;
     tenha_waterbody_ids := tenha_waterbody_ids self;
     upstream := upstream self; downstream := downstream self;
     flowline_waterbody := flowline_waterbody self;
     waterbody_flowline := waterbody_flowline self;
     intermit_flowline_ids := intermit_flowline_ids self;
     inlets := inlets self; outlets := outlets self;
     outlets_type := v;
     exclude_intermittent_flow := exclude_intermittent_flow self;
     lakes_areas := lakes_areas self |}.

Definition set_exclude_intermittent_flow (v : bool) (self : NHDNetwork) :=
  {| gdb := gdb self; waterbody_start_ids := waterbody_start_ids self;
     flowline_start_ids := flowline_start_ids self;
     flowline_stop_ids := flowline_stop_ids self;
     waterbody_stop_ids := waterbody_stop_ids self;
     tenha_waterbody_ids := tenha_waterbody_ids self;
     upstream := upstream self; downstream := downstream self;
     flowline_waterbody := flowline_waterbody self;
     waterbody_flowline := waterbody_flowline self;
     intermit_flowline_ids := intermit_flowline_ids self;
     inlets := inlets self; outlets := outlets self;
     outlets_type := outlets_type self;
     exclude_intermittent_flow := v;
     lakes_areas := lakes_areas self |}.

Definition set_lakes_areas (v : gmap string Q) (self : NHDNetwork) :=
  {| gdb := gdb self; waterbody_start_ids := waterbody_start_ids self;
     flowline_start_ids := flowline_start_ids self;
     flowline_stop_ids := flowline_stop_ids self;
     waterbody_stop_ids := waterbody_stop_ids self;
     tenha_waterbody_ids := tenha_waterbody_ids self;
     upstream := upstream self; downstream := downstream self;
     flowline_waterbody := flowline_waterbody self;
     waterbody_flowline := waterbody_flowline self;
     intermit_flowline_ids := intermit_flowline_ids self;
     inlets := inlets self; outlets := outlets self;
     outlets_type := outlets_type self;
     exclude_intermittent_flow := exclude_intermittent_flow self;
     lakes_areas := v |}.

(** ** Python containers *)

(** [d[k]] on a [defaultdict(list)]: a missing key is inserted with []. *)
Definition dd_getitem (d : gmap string (list string)) (k : string)
  : list string * gmap string (list string) :=
  match d !! k with
  | Some v => (v, d)
  | None => ([], <[k := []]> d)
  end.

(** [[d[k] for k in ks]] on a [defaultdict(list)]. *)
Fixpoint dd_getitems (d : gmap string (list string)) (ks : list string)
  : list (list string) * gmap string (list string) :=
  match ks with
  | [] => ([], d)
  | k :: ks' =>
      let '(v, d1) := dd_getitem d k in
      let '(vs, d2) := dd_getitems d1 ks' in
      (v :: vs, d2)
  end.

(** [d[k].append(v)] on a [defaultdict(list)]. *)
Definition dd_append (d : gmap string (list string)) (k v : string)
  : gmap string (list string) :=
  <[k := default [] (d !! k) ++ [v]]> d.

(** [not d] for a dict and [not l] for a list. *)
Definition dict_empty {V} (d : gmap string V) : bool := bool_decide (size d = 0).
Definition list_empty {A} (l : list A) : bool :=
  match l with [] => true | _ => false end.

(** [set(l)] and [list(s)]. *)
Definition pyset (l : list string) : gset string := list_to_set l.
Definition pylist (s : gset string) : list string := elements s.

(** Python truthiness of a nullable text column. *)
Definition truthy (o : option string) : bool :=
  match o with
  | Some s => negb (bool_decide (s = ""))
  | None => false
  end.

(** A dict comprehension [{k: v for ...}]: a later pair overwrites. *)
Definition dict_of_pairs {V} (l : list (string * V)) : gmap string V :=
  foldl (λ d kv, <[kv.1 := kv.2]> d) ∅ l.

(** ** Outcomes of a method call *)

Inductive exn :=
| ConfigurationError   (* raise Exception("Populate start IDs ...") *)
| ZeroDivisionError
| ValueError
| KeyError
| NonTermination.      (* a while loop that would not end *)

Inductive outcome (A : Type) :=
| Ok (a : A) (self : NHDNetwork)
| Raise (e : exn).
Arguments Ok {A} a self.
Arguments Raise {A} e.

Definition M (A : Type) : Type := NHDNetwork → outcome A.

#[global] Instance M_ret : MRet M := λ A a self, Ok a self.
#[global] Instance M_bind : MBind M := λ A B k m self,
  match m self with
  | Ok a self' => k a self'
  | Raise e => Raise e
  end.

Definition get : M NHDNetwork := λ self, Ok self self.
Definition modify (f : NHDNetwork → NHDNetwork) : M unit := λ self, Ok () (f self).
Definition raise {A} (e : exn) : M A := λ _, Raise e.
Definition when (b : bool) (m : M unit) : M unit := if b then m else mret ().

(** [[f(x) for x in l]] where [f] is a method. *)
Fixpoint for_each {A B} (f : A → M B) (l : list A) : M (list B) :=
  match l with
  | [] => mret []
  | x :: l' => y ← f x; ys ← for_each f l'; mret (y :: ys)
  end.

(** ** Utilities for higher methods *)

Definition upstream_row (intermit : gset string) (d : gmap string (list string))
    (row : string * string) : gmap string (list string) :=
  let '(from_id, to_id) := row in
  if decide (from_id = "0") then <[to_id := []]> d
  else if decide (from_id ∉ intermit) then dd_append d to_id from_id
  else d.

Definition prepare_upstream (force_refresh : bool) : M (gmap string (list string)) :=
  self ← get;
  when (dict_empty (upstream self) || force_refresh)
    (modify (set_upstream
       (foldl (upstream_row (intermit_flowline_ids self)) ∅ (NHDFlow (gdb self)))));;
  self ← get;
  mret (upstream self).

Definition downstream_row (intermit : gset string) (d : gmap string (list string))
    (row : string * string) : gmap string (list string) :=
  let '(from_id, to_id) := row in
  if decide (to_id = "0") then <[from_id := []]> d
  else if decide (to_id ∉ intermit) then dd_append d from_id to_id
  else d.

Definition prepare_downstream (force_refresh : bool) : M (gmap string (list string)) :=
  self ← get;
  when (dict_empty (downstream self) || force_refresh)
    (modify (set_downstream
       (foldl (downstream_row (intermit_flowline_ids self)) ∅ (NHDFlow (gdb self)))));;
  self ← get;
  mret (downstream self).

Definition intermittent_fcodes : list Z := [46003%Z; 46007%Z].

Definition drop_intermittent_flow : M unit :=
  self ← get;
  modify (set_intermit_flowline_ids
    (pyset (Permanent_Identifier <$>
       filter (λ r, FCode r ∈ intermittent_fcodes) (NHDFlowline (gdb self)))));;
  modify (set_exclude_intermittent_flow true);;
  self ← get;
  (if dict_empty (upstream self) then mret () else prepare_upstream true;; mret ());;
  self ← get;
  (if dict_empty (downstream self) then mret () else prepare_downstream true;; mret ()).

Definition include_intermittent_flow : M unit :=
  modify (set_intermit_flowline_ids ∅);;
  modify (set_exclude_intermittent_flow false);;
  self ← get;
  (if dict_empty (upstream self) then mret () else prepare_upstream true;; mret ());;
  self ← get;
  (if dict_empty (downstream self) then mret () else prepare_downstream true;; mret ()).

Definition map_flowlines_to_waterbodies : M (gmap string string) :=
  self ← get;
  modify (set_flowline_waterbody
    (dict_of_pairs
       (omap (λ r, if truthy (WBArea_Permanent_Identifier r)
                   then pair (Permanent_Identifier r) <$> WBArea_Permanent_Identifier r
                   else None)
             (NHDFlowline (gdb self)))));;
  self ← get;
  mret (flowline_waterbody self).

Definition waterbody_flowline_row (d : gmap string (list string)) (r : flowline_row)
  : gmap string (list string) :=
  match WBArea_Permanent_Identifier r with
  | Some waterbody_id =>
      if truthy (Some waterbody_id)
      then dd_append d waterbody_id (Permanent_Identifier r)
      else d
  | None => d
  end.

Definition map_waterbodies_to_flowlines : M unit :=
  self ← get;
  modify (set_waterbody_flowline
    (foldl waterbody_flowline_row (waterbody_flowline self) (NHDFlowline (gdb self)))).

Section Methods.

(** [lagosGIS.LAGOS_FCODE_LIST], a constant of the package's [__init__]. *)
Variable LAGOS_FCODE_LIST : list Z.

Definition define_lakes (strict_minsize force_lagos : bool) : M (gmap string Q) :=
  modify (set_lakes_areas ∅);;
  self ← get;
  let lake_minsize : Q := if strict_minsize then (1 # 100)%Q else (9 # 1000)%Q in
  let force_ids : gset string :=
    if force_lagos then
      match lagos_pop (gdb self) with
      | Some rows => pyset rows
      | None => ∅
      end
    else ∅ in
  modify (set_lakes_areas
    (foldl (λ d row,
       if (Qle_bool lake_minsize (AreaSqKm row)
           && bool_decide (wb_FCode row ∈ LAGOS_FCODE_LIST))
          || bool_decide (wb_Permanent_Identifier row ∈ force_ids)
       then <[wb_Permanent_Identifier row := AreaSqKm row]> d
       else d) ∅ (NHDWaterbody (gdb self))));;
  self ← get;
  mret (lakes_areas self).

(** ** Network setup for tracing *)

Definition set_start_ids (waterbody_start_ids : list string) : M (list string) :=
  self ← get;
  when (dict_empty (waterbody_flowline self)) map_waterbodies_to_flowlines;;
  modify (set_waterbody_start_ids waterbody_start_ids);;
  self ← get;
  let '(flowline_ids_unflat, d) := dd_getitems (waterbody_flowline self) waterbody_start_ids in
  modify (set_waterbody_flowline d);;
  modify (set_flowline_start_ids (concat flowline_ids_unflat));;
  mret (concat flowline_ids_unflat).

Definition set_stop_ids (waterbody_stop_ids : list string) : M (list string) :=
  self ← get;
  when (dict_empty (waterbody_flowline self)) map_waterbodies_to_flowlines;;
  modify (set_waterbody_stop_ids waterbody_stop_ids);;
  self ← get;
  let '(flowline_ids_unflat, d) := dd_getitems (waterbody_flowline self) waterbody_stop_ids in
  modify (set_waterbody_flowline d);;
  modify (set_flowline_stop_ids (concat flowline_ids_unflat));;
  mret (concat flowline_ids_unflat).

Definition activate_10ha_lake_stops : M (list string) :=
  modify (set_waterbody_stop_ids []);;
  self ← get;
  (if dict_empty (lakes_areas self) then define_lakes false false;; mret () else mret ());;
  self ← get;
  let stop_ids :=
    (filter (λ kv, Qle_bool (1 # 10)%Q kv.2 = true) (map_to_list (lakes_areas self))).*1 in
  modify (set_waterbody_stop_ids stop_ids);;
  set_stop_ids stop_ids;;
  modify (set_tenha_waterbody_ids stop_ids);;
  mret stop_ids.

Definition deactivate_stops : M unit :=
  modify (set_waterbody_stop_ids []);;
  modify (set_flowline_stop_ids []).

(** ** Watershed tracing methods *)

(** The [while from_ids:] loop of [trace_up_from_a_flowline] and, with the
    downstream dict, of [trace_down_from_a_flowline]: the two bodies are the
    same text.  [d] is the adjacency [defaultdict]; [stops] is
    [self.flowline_stop_ids].  The loop is run with a budget of iterations;
    the callers give it [limit], which is never exhausted
    (see [trace_loop_terminates]). *)
Fixpoint trace_loop (fuel : nat) (stops : list string) (limit : nat)
    (d : gmap string (list string)) (from_ids all_from_ids : list string)
  : option (list string * gmap string (list string)) :=
  match from_ids with
  | [] => Some (all_from_ids, d)
  | _ =>
    match fuel with
    | O => None
    | S fuel' =>
      let '(next_up, d') := dd_getitems d from_ids in
      (* flatten results *)
      let next_up_flat := pyset (concat next_up) in
      let next_up_flat :=
        if list_empty stops then next_up_flat else next_up_flat ∖ pyset stops in
      if bool_decide (limit ≤ length all_from_ids)%nat then
        let all_from_ids := pylist (pyset all_from_ids) in
        let from_ids := pylist (next_up_flat ∖ pyset all_from_ids) in
        trace_loop fuel' stops limit d' from_ids (all_from_ids ++ from_ids)
      else
        let from_ids := pylist next_up_flat in
        trace_loop fuel' stops limit d' from_ids (all_from_ids ++ from_ids)
    end
  end.

(** From the first read of the adjacency to the end of the loop. *)
Definition trace_flowlines (stops : list string) (d : gmap string (list string))
    (flowline_start_id : string) : option (list string * gmap string (list string)) :=
  let '(from_ids, d) := dd_getitem d flowline_start_id in
  let all_from_ids := from_ids ++ [flowline_start_id] in
  let limit := size d in
  trace_loop limit stops limit d from_ids all_from_ids.

(** The [if include_wb_permids:] tail shared by both directions. *)
Definition add_wb_permids (include_wb_permids : bool) (all_from_ids : list string)
  : M (list string) :=
  let all_from_ids := pylist (pyset all_from_ids) in
  if include_wb_permids then
    self ← get;
    (if dict_empty (flowline_waterbody self)
     then map_flowlines_to_waterbodies;; mret () else mret ());;
    self ← get;
    let wb_permids_set := pyset (omap (λ id, flowline_waterbody self !! id) all_from_ids) in
    let wb_permids := pylist (wb_permids_set ∖ pyset (waterbody_stop_ids self)) in
    mret (pylist (pyset (all_from_ids ++ wb_permids)))
  else
    mret (pylist (pyset all_from_ids)).

Definition trace_up_from_a_flowline (flowline_start_id : string)
    (include_wb_permids : bool) : M (list string) :=
  self ← get;
  (if dict_empty (upstream self) then prepare_upstream false;; mret () else mret ());;
  self ← get;
  match trace_flowlines (flowline_stop_ids self) (upstream self) flowline_start_id with
  | None => raise NonTermination
  | Some (all_from_ids, d) =>
      modify (set_upstream d);;
      add_wb_permids include_wb_permids all_from_ids
  end.

Definition trace_down_from_a_flowline (flowline_start_id : string)
    (include_wb_permids : bool) : M (list string) :=
  self ← get;
  (if dict_empty (downstream self) then prepare_downstream false;; mret () else mret ());;
  self ← get;
  match trace_flowlines (flowline_stop_ids self) (downstream self) flowline_start_id with
  | None => raise NonTermination
  | Some (all_to_ids, d) =>
      modify (set_downstream d);;
      add_wb_permids include_wb_permids all_to_ids
  end.

(** ** Inlet/outlet methods *)

Definition identify_lake_outlets (waterbody_start_id : string) : M (list string) :=
  self ← get;
  (if dict_empty (upstream self) then prepare_upstream false;; mret () else mret ());;
  self ← get;
  when (dict_empty (waterbody_flowline self)) map_waterbodies_to_flowlines;;
  self ← get;
  let '(own, wf) := dd_getitem (waterbody_flowline self) waterbody_start_id in
  modify (set_waterbody_flowline wf);;
  let flowline_start_ids := pyset own in
  (* identify the lowest start ids *)
  let '(next_up, up) := dd_getitems (upstream self) (pylist flowline_start_ids) in
  modify (set_upstream up);;
  let next_up_flat := pyset (concat next_up) in
  let lowest_flowline_start_ids := flowline_start_ids ∖ next_up_flat in
  mret (pylist lowest_flowline_start_ids).

Definition identify_lake_inlets (waterbody_start_id : string) : M (list string) :=
  self ← get;
  (if dict_empty (downstream self) then prepare_downstream false;; mret () else mret ());;
  self ← get;
  when (dict_empty (waterbody_flowline self)) map_waterbodies_to_flowlines;;
  self ← get;
  let '(own, wf) := dd_getitem (waterbody_flowline self) waterbody_start_id in
  modify (set_waterbody_flowline wf);;
  let flowline_start_ids := pyset own in
  (* identify the highest start ids *)
  let '(next_down, down) := dd_getitems (downstream self) (pylist flowline_start_ids) in
  modify (set_downstream down);;
  let next_down_flat := pyset (concat next_down) in
  let highest_flowline_start_ids := flowline_start_ids ∖ next_down_flat in
  mret (pylist highest_flowline_start_ids).

(** [s in t] on Python strings: [s] occurs in [t]. *)
Fixpoint str_in (s t : string) : bool :=
  String.prefix s t ||
  match t with
  | EmptyString => false
  | String _ t' => str_in s t'
  end.

Definition trace_up_from_a_waterbody (waterbody_start_id : string) : M (list string) :=
  (* set up the network if necessary *)
  self ← get;
  (if dict_empty (upstream self) then prepare_upstream false;; mret () else mret ());;
  self ← get;
  when (dict_empty (waterbody_flowline self)) map_waterbodies_to_flowlines;;
  self ← get;
  let '(own, wf) := dd_getitem (waterbody_flowline self) waterbody_start_id in
  modify (set_waterbody_flowline wf);;
  let flowline_start_ids := pyset own in
  (* remove waterbody's own flowlines from stop ids *)
  self ← get;
  let flowline_stop_ids_restore := flowline_stop_ids self in
  let waterbody_stop_ids_restore := waterbody_stop_ids self in
  let reset_stops := negb (list_empty (flowline_stop_ids self)) in
  when reset_stops
    (modify (set_flowline_stop_ids
       (filter (λ id, id ∉ flowline_start_ids) (flowline_stop_ids self)));;
     modify (set_waterbody_stop_ids
       (filter (λ id, str_in id waterbody_start_id = false) (waterbody_stop_ids self))));;
  lowest ← identify_lake_outlets waterbody_start_id;
  let lowest_flowline_start_ids := pyset lowest in
  (* then trace up for all and flatten result *)
  unflat_trace_all ←
    for_each (λ id, trace_up_from_a_flowline id true) (pylist lowest_flowline_start_ids);
  let all_from_ids := pylist (pyset (concat unflat_trace_all)) in
  (* reset flowline_stop_ids *)
  when reset_stops
    (modify (set_flowline_stop_ids flowline_stop_ids_restore);;
     modify (set_waterbody_stop_ids waterbody_stop_ids_restore));;
  mret all_from_ids.

Definition trace_down_from_a_waterbody (waterbody_start_id : string) : M (list string) :=
  (* set up the network if necessary *)
  self ← get;
  (if dict_empty (downstream self) then prepare_downstream false;; mret () else mret ());;
  self ← get;
  when (dict_empty (waterbody_flowline self)) map_waterbodies_to_flowlines;;
  self ← get;
  let '(own, wf) := dd_getitem (waterbody_flowline self) waterbody_start_id in
  modify (set_waterbody_flowline wf);;
  let flowline_start_ids := pyset own in
  (* remove waterbody's own flowlines from stop ids *)
  self ← get;
  let flowline_stop_ids_restore := flowline_stop_ids self in
  let waterbody_stop_ids_restore := waterbody_stop_ids self in
  let reset_stops := negb (list_empty (flowline_stop_ids self)) in
  when reset_stops
    (modify (set_flowline_stop_ids
       (filter (λ id, id ∉ flowline_start_ids) (flowline_stop_ids self)));;
     modify (set_waterbody_stop_ids
       (filter (λ id, str_in id waterbody_start_id = false) (waterbody_stop_ids self))));;
  highest ← identify_lake_inlets waterbody_start_id;
  let highest_flowline_start_ids := pyset highest in
  (* then trace down for all and flatten result *)
  unflat_trace_all ←
    for_each (λ id, trace_down_from_a_flowline id true) (pylist highest_flowline_start_ids);
  let all_to_ids := pylist (pyset (concat unflat_trace_all)) in
  (* reset flowline_stop_ids *)
  when reset_stops
    (modify (set_flowline_stop_ids flowline_stop_ids_restore);;
     modify (set_waterbody_stop_ids waterbody_stop_ids_restore));;
  mret all_to_ids.

Definition trace_up_from_waterbody_starts : M (gmap string (list string)) :=
  self ← get;
  if negb (list_empty (waterbody_start_ids self)) then
    results ← for_each (λ id, t ← trace_up_from_a_waterbody id; mret (id, t))
                       (waterbody_start_ids self);
    mret (dict_of_pairs results)
  else raise ConfigurationError.

Definition identify_subregion_inlets : M (list string) :=
  self ← get;
  (if dict_empty (downstream self) then prepare_downstream false;; mret () else mret ());;
  self ← get;
  let from_ids : gset string := dom (downstream self) ∖ {["0"]} in
  let to_all : gset string := pyset (concat (map_to_list (downstream self)).*2) in
  let upstream_outlets := pylist (from_ids ∖ to_all) in
  let inlets_unflat :=
    (filter (λ kv, kv.1 ∈ upstream_outlets) (map_to_list (downstream self))).*2 in
  let inlets := concat inlets_unflat in
  modify (set_inlets inlets);;
  mret inlets.

(** The first half of [identify_subregion_outlets]: the primary candidates,
    the ids [from_all] and [downstream_inlets], read off the upstream dict. *)
Definition primary_candidates (up : gmap string (list string))
  : list string * gset string * list string :=
  let to_ids : gset string := dom up ∖ {["0"]} in
  let from_all : gset string := pyset (concat (map_to_list up).*2) in
  let downstream_inlets := pylist (to_ids ∖ from_all) in
  let outlets_unflat :=
    (filter (λ kv, kv.1 ∈ downstream_inlets) (map_to_list up)).*2 in
  (concat outlets_unflat, from_all, downstream_inlets).

(** [max(l)] on a list of sizes. *)
Definition py_max (l : list nat) : M nat :=
  match l with
  | [] => raise ValueError
  | n :: l' => mret (foldl Nat.max n l')
  end.

(** [float(a)/b < .5] on two lengths: a zero divisor raises, otherwise the
    comparison is that of the exact quotient, [2 * a < b]. *)
Definition fraction_below_half (a b : nat) : M bool :=
  if bool_decide (b = 0) then raise ZeroDivisionError
  else mret (bool_decide (2 * a < b)).

Definition identify_subregion_outlets : M (list string) :=
  self ← get;
  (if dict_empty (upstream self) then prepare_upstream false;; mret () else mret ());;
  self ← get;
  let '(outlets, from_all, downstream_inlets) := primary_candidates (upstream self) in
  (* check that main outlet actually covers > 50% of network *)
  outlet_network_lists ← for_each (λ o, trace_up_from_a_flowline o true) outlets;
  let outlet_network := pyset (concat outlet_network_lists) in
  below ← fraction_below_half (size outlet_network) (size from_all);
  outlets ←
    (if list_empty outlets || below then
       self ← get;
       let to_ids : gset string := dom (upstream self) in   (* allow ocean(0) this time *)
       let '(next_up, up) := dd_getitems (upstream self) (pylist to_ids) in
       modify (set_upstream up);;
       let next_up_flat := pyset (concat next_up) in
       let lowest_to_ids := pylist (to_ids ∖ next_up_flat) in
       if bool_decide (lowest_to_ids = ["0"])
          || bool_decide (pyset lowest_to_ids ∖ pyset downstream_inlets = {["0"]})
       then
         (* lowest_to_ids.extend(self.upstream['0']); lowest_to_ids.remove('0') *)
         self ← get;
         let '(_, up) := dd_getitem (upstream self) "0" in
         modify (set_upstream up);;
         mret outlets
       else
         distinct_net_sizes ←
           for_each (λ id, t ← trace_up_from_a_flowline id true; mret (id, length t))
                    lowest_to_ids;
         max_net_size ← py_max distinct_net_sizes.*2;
         modify (set_outlets_type (Some secondary));;
         mret (filter (λ kv, max_net_size ≤ 2 * kv.2) distinct_net_sizes).*1
     else
       modify (set_outlets_type (Some primary));;
       mret outlets);
  modify (set_outlets outlets);;
  mret outlets.

Definition trace_up_from_hu4_outlets : M (list string) :=
  self ← get;
  (if list_empty (outlets self) then identify_subregion_outlets;; mret () else mret ());;
  self ← get;
  results_unflat ← for_each (λ id, trace_up_from_a_flowline id true) (outlets self);
  let results := concat results_unflat in
  self ← get;
  let results_waterbodies := omap (λ flowid, flowline_waterbody self !! flowid) results in
  mret (results ++ results_waterbodies).

(** ** Other connectivity calculations *)

Inductive connclass :=
| Isolated | Headwater | Terminal | TerminalLk | Drainage | DrainageLk.

#[global] Instance connclass_eq_dec : EqDecision connclass.
Proof. solve_decision. Defined.

(** [classify_waterbody_connectivity] in three blocks.  First the set-up
    before "Isolated first": lazy loading, the 10 ha lake list, and the
    barriers saved and deactivated.  It yields [reset] and the two saved
    lists. *)
Definition classify_setup : M (bool * list string * list string) :=
  self ← get;
  (if dict_empty (upstream self) then prepare_upstream false;; mret () else mret ());;
  self ← get;
  (if dict_empty (downstream self) then prepare_downstream false;; mret () else mret ());;
  self ← get;
  (if dict_empty (waterbody_flowline self)
   then map_flowlines_to_waterbodies;; mret () else mret ());;
  self ← get;
  (if list_empty (tenha_waterbody_ids self)
   then activate_10ha_lake_stops;; deactivate_stops else mret ());;
  self ← get;
  let reset := negb (list_empty (flowline_stop_ids self)) in
  let reset_flowline_stop_ids := flowline_stop_ids self in
  let reset_waterbody_stop_ids := waterbody_stop_ids self in
  when reset deactivate_stops;;
  mret (reset, reset_flowline_stop_ids, reset_waterbody_stop_ids).

(** Then the [if ... else ...] that assigns [connclass] from the two traces. *)
Definition classify_decide (waterbody_start_id : string)
    (trace_up trace_down : list string) : M connclass :=
  self ← get;
  if bool_decide (length trace_up = 0) && bool_decide (length trace_down = 0)
     && negb (exclude_intermittent_flow self)
  then mret Isolated
  else
    (* inside_ids = self.waterbody_flowline[id]; inside_ids.append(id):
       the list appended to is the one the dict holds *)
    let '(inside_ids, wf) := dd_getitem (waterbody_flowline self) waterbody_start_id in
    let inside_ids := inside_ids ++ [waterbody_start_id] in
    modify (set_waterbody_flowline (<[waterbody_start_id := inside_ids]> wf));;
    self ← get;
    let nonself_trace_down := pyset trace_down ∖ pyset inside_ids in
    let nonself_trace_up := pyset trace_up ∖ pyset inside_ids in
    let tenha_upstream := nonself_trace_up ∩ pyset (tenha_waterbody_ids self) in
    if bool_decide (size nonself_trace_up = 0) then   (* no upstream connectivity *)
      if bool_decide (0 < size nonself_trace_down) then mret Headwater
      else mret Isolated
    else   (* has upstream connectivity *)
      if bool_decide (size nonself_trace_down = 0) then   (* no downstream connectivity *)
        if bool_decide (tenha_upstream ≠ ∅) then mret TerminalLk else mret Terminal
      else   (* has downstream connectivity (and upstream) *)
        if bool_decide (tenha_upstream ≠ ∅) then mret DrainageLk else mret Drainage.

Definition classify_waterbody_connectivity (waterbody_start_id : string) : M connclass :=
  '(reset, reset_flowline_stop_ids, reset_waterbody_stop_ids) ← classify_setup;
  (* Isolated first *)
  trace_up ← trace_up_from_a_waterbody waterbody_start_id;
  trace_down ← trace_down_from_a_waterbody waterbody_start_id;
  connclass ← classify_decide waterbody_start_id trace_up trace_down;
  when reset
    (modify (set_waterbody_stop_ids reset_waterbody_stop_ids);;
     modify (set_flowline_stop_ids reset_flowline_stop_ids));;
  mret connclass.

(** ** Interlake erasable regions *)

(** Iterating over a Python string yields its one-character strings. *)
Definition chars (s : string) : gset string :=
  pyset ((λ c, String c EmptyString) <$> String.list_ascii_of_string s).

(** [d[k]] on a plain dict. *)
Definition dict_getitem {V} (d : gmap string V) (k : string) : M V :=
  match d !! k with
  | Some v => mret v
  | None => raise KeyError
  end.

(** The body of [for lake_id in focal_lakes:] after the three lookups
    ("no more tracing tools from this point, just set math"). *)
Definition erasable_of (focal_downstream focal_upstream focal_interlake : gset string)
    (tenha_terminal tenha_drainage : gmap string (gset string))
    (isolated_erasable_segments : gset string) : gset string :=
  (* nothing ever needs erasing if the focal lake is itself Isolated or Headwater *)
  if bool_decide (size focal_upstream < 2) then ∅
  else
    (* get qualifying terminal lakes, those not downstream of focal lake *)
    let terminal_tenha_eligible :=
      filter (λ kv, kv.1 ∉ focal_downstream) tenha_terminal in
    (* get qualifying drainage lakes, those with outlet upstream of focal lake *)
    let tenha_drainage_eligible :=
      filter (λ kv, kv.1 ∈ focal_upstream) tenha_drainage in
    (* other_tenha_eligible.update(tenha_drainage_eligible) *)
    let other_tenha_eligible := tenha_drainage_eligible ∪ terminal_tenha_eligible in
    (* test for complete or partial erasure *)
    let full_erasable :=
      filter (λ kv, kv.2 ∩ focal_interlake = ∅) other_tenha_eligible in
    let partial_erasable :=
      (λ v, v ∖ focal_interlake)
        <$> filter (λ kv, kv.2 ∩ focal_interlake ≠ ∅) other_tenha_eligible in
    (* convert to flat sets *)
    let full_erasable_segments : gset string := ⋃ (map_to_list full_erasable).*2 in
    let partial_erasable_segments : gset string := ⋃ (map_to_list partial_erasable).*2 in
    (* merge with isolated 10ha+ lakes (all included) to make final result *)
    isolated_erasable_segments ∪ full_erasable_segments ∪ partial_erasable_segments.

Definition define_interlake_erasable : M (gmap string (gset string)) :=
  (* Establish waterbody_start_ids population *)
  self ← get;
  if list_empty (waterbody_start_ids self) then raise ConfigurationError else
  let focal_lakes := waterbody_start_ids self in
  (* traces for each lake in results as sets *)
  deactivate_stops;;
  ups ← trace_up_from_waterbody_starts;
  let lake_upstream_traces : gmap string (gset string) := pyset <$> ups in
  downs ← for_each (λ k, t ← trace_down_from_a_waterbody k; mret (k, pyset t)) focal_lakes;
  let lake_downstream_traces := dict_of_pairs downs in
  activate_10ha_lake_stops;;
  inter ← trace_up_from_waterbody_starts;
  let lake_interlake_traces : gmap string (gset string) := pyset <$> inter in
  deactivate_stops;;
  (* get conn class for tenha lakes *)
  self ← get;
  conn ← for_each (λ id, c ← classify_waterbody_connectivity id; mret (id, c))
                  (tenha_waterbody_ids self);
  let tenha_conn := dict_of_pairs conn in
  (* get networks for tenha lakes as sets *)
  self ← get;
  set_start_ids (tenha_waterbody_ids self);;
  nets ← trace_up_from_waterbody_starts;
  let tenha_nets_full : gmap string (gset string) := pyset <$> nets in
  (* tenha_conn[k] for every key k of tenha_nets_full *)
  (if bool_decide (dom tenha_nets_full ⊆ dom tenha_conn) then mret () else raise KeyError);;
  let tenha_isolated :=
    filter (λ kv, tenha_conn !! kv.1 = Some Isolated) tenha_nets_full in
  let tenha_terminal_entire :=
    filter (λ kv, tenha_conn !! kv.1 = Some Terminal ∨ tenha_conn !! kv.1 = Some TerminalLk)
           tenha_nets_full in
  (* only portions of terminal networks that are off the main network will be erasable *)
  hu4 ← trace_up_from_hu4_outlets;
  let on_network := pyset hu4 in
  let tenha_terminal := (λ v, v ∖ on_network) <$> tenha_terminal_entire in
  let tenha_drainage :=
    filter (λ kv, tenha_conn !! kv.1 = Some Headwater ∨ tenha_conn !! kv.1 = Some Drainage
                  ∨ tenha_conn !! kv.1 = Some DrainageLk) tenha_nets_full in
  (* all lakes will get isolated added. Use keys because traces are empty for Isolated *)
  let isolated_erasable_segments : gset string := dom tenha_isolated in
  deactivate_stops;;   (* get full networks at start of loop *)
  erasable ←
    for_each (λ lake_id,
      (* get the focal lake's networks and drop the lake itself *)
      down ← dict_getitem lake_downstream_traces lake_id;
      up ← dict_getitem lake_upstream_traces lake_id;
      il ← dict_getitem lake_interlake_traces lake_id;
      let focal_downstream := down ∖ chars lake_id in
      let focal_upstream := up ∖ chars lake_id in
      let focal_interlake := il ∖ chars lake_id in
      mret (lake_id, erasable_of focal_downstream focal_upstream focal_interlake
                       tenha_terminal tenha_drainage isolated_erasable_segments))
    focal_lakes;
  mret (dict_of_pairs erasable).

End Methods.

(** ** Definitions used by the statements *)

Section Statements.

Variable LAGOS_FCODE_LIST : list Z.

(** The lake population a method reads after
    [if not self.lakes_areas: self.define_lakes()]. *)
Definition lake_population (self : NHDNetwork) : gmap string Q :=
  match (if dict_empty (lakes_areas self)
         then define_lakes LAGOS_FCODE_LIST false false;; mret () else mret ()) self with
  | Ok _ self' => lakes_areas self'
  | Raise _ => ∅
  end.


(** Lookup with the default of the [defaultdict], without the insertion. *)
Definition adj (d : gmap string (list string)) (k : string) : list string :=
  default [] (d !! k).

(** The ids one hop beyond the frontier [F], barriers removed: the value of
    [next_up_flat] in the loop. *)
Definition succs (a : string → list string) (stops : list string)
    (F : list string) : gset string :=
  let n := pyset (concat (a <$> F)) in
  if list_empty stops then n else n ∖ pyset stops.

(** One iteration of the loop on the frontier and the accumulated list. *)
Definition step (a : string → list string) (stops : list string) (limit : nat)
    (F A : list string) : list string * list string :=
  if bool_decide (limit ≤ length A)%nat then
    let A1 := pylist (pyset A) in
    let F' := pylist (succs a stops F ∖ pyset A1) in
    (F', A1 ++ F')
  else
    let F' := pylist (succs a stops F) in
    (F', A ++ F').

(** [reach a stops x y]: [y] is in the barrier-bounded network of [x].  The
    start and its immediate neighbours always are; beyond them a barrier id
    is never entered. *)
Inductive reach (a : string → list string) (stops : list string) (x : string)
  : string → Prop :=
| reach_start : reach a stops x x
| reach_first y : y ∈ a x → reach a stops x y
| reach_step z y : reach a stops x z → y ∈ a z → y ∉ stops → reach a stops x y.

(** Loop invariant of [trace_loop], for the frontier [F] and the list [A]. *)
Definition trace_inv (a : string → list string) (stops : list string) (x : string)
    (F A : list string) : Prop :=
  (∀ y, y ∈ F → y ∈ A) ∧
  (∀ v, v ∈ A → v ∈ F ∨ succs a stops [v] ⊆ pyset A) ∧
  x ∈ A ∧
  (∀ y, y ∈ a x → y ∈ A) ∧
  (∀ v, v ∈ A → reach a stops x v).

(** Keys of [K] that still have a neighbour outside [V]. *)
Definition pending (a : string → list string) (stops : list string)
    (K V : gset string) : gset string :=
  filter (λ k, ¬ succs a stops [k] ⊆ V) K.

(** The instance after [if not self.upstream: self.prepare_upstream()], and
    after the same for the downstream dict. *)
Definition ensure_upstream (self : NHDNetwork) : NHDNetwork :=
  if dict_empty (upstream self)
  then set_upstream
         (foldl (upstream_row (intermit_flowline_ids self)) ∅ (NHDFlow (gdb self))) self
  else self.

Definition ensure_downstream (self : NHDNetwork) : NHDNetwork :=
  if dict_empty (downstream self)
  then set_downstream
         (foldl (downstream_row (intermit_flowline_ids self)) ∅ (NHDFlow (gdb self))) self
  else self.

(** The adjacency dicts a trace reads: what [prepare_upstream()] and
    [prepare_downstream()] return. *)
Definition upstream_of (self : NHDNetwork) : gmap string (list string) :=
  match prepare_upstream false self with
  | Ok up _ => up
  | Raise _ => ∅
  end.

Definition downstream_of (self : NHDNetwork) : gmap string (list string) :=
  match prepare_downstream false self with
  | Ok down _ => down
  | Raise _ => ∅
  end.

(** [flows d u v]: [v] is listed as a neighbour of [u] in the dict [d]. *)
Definition flows (d : gmap string (list string)) (u v : string) : Prop :=
  v ∈ adj d u.

(** [v] is reachable from [u] through the adjacency [d], in any number of
    hops. *)
Definition reachable (d : gmap string (list string)) : string → string → Prop :=
  rtc (flows d).

(** [flows_avoiding d b u v]: a hop from [u] to [v] that does not land on [b]. *)
Definition flows_avoiding (d : gmap string (list string)) (b u v : string) : Prop :=
  flows d u v ∧ v ≠ b.

(** The instance after
    [if not self.waterbody_flowline: self.map_waterbodies_to_flowlines()]. *)
Definition ensure_waterbody_flowline (self : NHDNetwork) : NHDNetwork :=
  if dict_empty (waterbody_flowline self)
  then set_waterbody_flowline
         (foldl waterbody_flowline_row (waterbody_flowline self) (NHDFlowline (gdb self)))
         self
  else self.

(** The waterbody-to-flowlines dict a method reads after that step. *)
Definition waterbody_flowline_of (self : NHDNetwork) : gmap string (list string) :=
  match when (dict_empty (waterbody_flowline self)) map_waterbodies_to_flowlines self with
  | Ok _ self' => waterbody_flowline self'
  | Raise _ => ∅
  end.

(** A waterbody's own flowline ids. *)
Definition own_flowlines (self : NHDNetwork) (waterbody_id : string) : list string :=
  adj (waterbody_flowline_of self) waterbody_id.

(** The flowline-to-waterbody dict a method reads after
    [if not self.flowline_waterbody: self.map_flowlines_to_waterbodies()]. *)
Definition flowline_waterbody_of (self : NHDNetwork) : gmap string string :=
  match (if dict_empty (flowline_waterbody self)
         then map_flowlines_to_waterbodies;; mret () else mret ()) self with
  | Ok _ self' => flowline_waterbody self'
  | Raise _ => ∅
  end.

(** A [defaultdict] after reads: the same lists, possibly more keys. *)
Definition dict_grows (d d' : gmap string (list string)) : Prop :=
  (∀ k, adj d' k = adj d k) ∧ dom d ⊆ dom d'.

(** [same_network s s']: [s'] reads the same geodatabase and the same
    adjacency and identifier maps as [s]. *)
Definition same_network (s s' : NHDNetwork) : Prop :=
  gdb s' = gdb s ∧
  intermit_flowline_ids s' = intermit_flowline_ids s ∧
  exclude_intermittent_flow s' = exclude_intermittent_flow s ∧
  dict_grows (upstream_of s) (upstream_of s') ∧
  dict_grows (downstream_of s) (downstream_of s') ∧
  dict_grows (waterbody_flowline_of s) (waterbody_flowline_of s') ∧
  flowline_waterbody_of s' = flowline_waterbody_of s.

(** [same_config s s']: the start ids, the lake population and the outlets
    are those of [s]. *)
Definition same_config (s s' : NHDNetwork) : Prop :=
  waterbody_start_ids s' = waterbody_start_ids s ∧
  flowline_start_ids s' = flowline_start_ids s ∧
  tenha_waterbody_ids s' = tenha_waterbody_ids s ∧
  lakes_areas s' = lakes_areas s ∧
  inlets s' = inlets s ∧
  outlets s' = outlets s ∧
  outlets_type s' = outlets_type s.

(** [same_stops s s']: the active barriers are those of [s]. *)
Definition same_stops (s s' : NHDNetwork) : Prop :=
  flowline_stop_ids s' = flowline_stop_ids s ∧
  waterbody_stop_ids s' = waterbody_stop_ids s.

(** [raw_grows s s']: the three [defaultdict]s of [s'] hold the keys of
    those of [s]. *)
Definition raw_grows (s s' : NHDNetwork) : Prop :=
  dom (upstream s) ⊆ dom (upstream s') ∧
  dom (downstream s) ⊆ dom (downstream s') ∧
  dom (waterbody_flowline s) ⊆ dom (waterbody_flowline s').

(** [frame s s']: what every tracing method leaves as it was. *)
Definition frame (s s' : NHDNetwork) : Prop :=
  same_network s s' ∧ same_config s s' ∧ same_stops s s' ∧ raw_grows s s'.

(** [in_trace a fw fstops wstops wb x y]: [y] is in the trace of the flowline
    [x] over the adjacency [a] with flowline barriers [fstops]; with [wb] set,
    the trace also holds the waterbody of each traced flowline (by the dict
    [fw]) unless that waterbody is one of the barriers [wstops]. *)
Definition in_trace (a : string → list string) (fw : gmap string string)
    (fstops wstops : list string) (wb : bool) (x y : string) : Prop :=
  reach a fstops x y ∨
  (wb = true ∧ ∃ f, reach a fstops x f ∧ fw !! f = Some y ∧ y ∉ wstops).

(** [lake_ends a own y]: [y] is one of the flowlines [own] of a lake and is
    not listed as a neighbour, in the adjacency [a], of any of them.  With
    the upstream adjacency these are the lake's outlets, with the downstream
    adjacency its inlets. *)
Definition lake_ends (a : string → list string) (own : list string) (y : string) : Prop :=
  y ∈ own ∧ ∀ g, g ∈ own → y ∉ a g.

(** [in_waterbody_trace a fw wf fstops wstops w y]: [y] is in the trace of
    the waterbody [w]: the union of the waterbody-inclusive traces of the
    lake's ends, the lake's own flowlines and id being exempt from the
    barriers when flowline barriers are active. *)
Definition in_waterbody_trace (a : string → list string) (fw : gmap string string)
    (wf : string → list string) (fstops wstops : list string) (w y : string) : Prop :=
  ∃ o, lake_ends a (wf w) o ∧
       in_trace a fw
         (filter (λ id, id ∉ pyset (wf w)) fstops)
         (if list_empty fstops then wstops
          else filter (λ id, str_in id w = false) wstops)
         true o y.

(** The text that [trace_up_from_a_waterbody] and
    [trace_down_from_a_waterbody] share after their first line, with the
    direction's two methods as parameters. *)
Definition waterbody_trace_tail (ends : string → M (list string))
    (trace : string → bool → M (list string)) (waterbody_start_id : string)
  : M (list string) :=
  self ← get;
  when (dict_empty (waterbody_flowline self)) map_waterbodies_to_flowlines;;
  self ← get;
  let '(own, wf) := dd_getitem (waterbody_flowline self) waterbody_start_id in
  modify (set_waterbody_flowline wf);;
  let flowline_start_ids := pyset own in
  self ← get;
  let flowline_stop_ids_restore := flowline_stop_ids self in
  let waterbody_stop_ids_restore := waterbody_stop_ids self in
  let reset_stops := negb (list_empty (flowline_stop_ids self)) in
  when reset_stops
    (modify (set_flowline_stop_ids
       (filter (λ id, id ∉ flowline_start_ids) (flowline_stop_ids self)));;
     modify (set_waterbody_stop_ids
       (filter (λ id, str_in id waterbody_start_id = false) (waterbody_stop_ids self))));;
  lowest ← ends waterbody_start_id;
  unflat_trace_all ← for_each (λ id, trace id true) (pylist (pyset lowest));
  let all_from_ids := pylist (pyset (concat unflat_trace_all)) in
  when reset_stops
    (modify (set_flowline_stop_ids flowline_stop_ids_restore);;
     modify (set_waterbody_stop_ids waterbody_stop_ids_restore));;
  mret all_from_ids.

(** The keys of an adjacency dict whose list is not empty: with the upstream
    dict, the segments that have a recorded upstream neighbour. *)
Definition has_neighbor (d : gmap string (list string)) : gset string :=
  filter (λ k, adj d k ≠ []) (dom d).

End Statements.

(** The instance a method leaves (the instance itself if it raises). *)
Definition run_state {A} (m : M A) (self : NHDNetwork) : NHDNetwork :=
  match m self with
  | Ok _ self' => self'
  | Raise _ => self
  end.

(** ** Sample networks *)

(** The chain A → B → C → D, A upstream-most. *)
Definition chain_gdb : geodatabase := {|
  NHDFlow := [("0", "A"); ("A", "B"); ("B", "C"); ("C", "D")];
  NHDFlowline := [];
  NHDWaterbody := [];
  lagos_pop := None
|}.

Definition chain : NHDNetwork := init chain_gdb.

(** The chain with a barrier at B. *)
Definition chain_barrier_B : NHDNetwork := set_flowline_stop_ids ["B"] (init chain_gdb).

(** A lake W with two internal flowlines: L2 feeds L1, L1 is the outlet. *)
Definition two_flowline_lake_gdb : geodatabase := {|
  NHDFlow := [("0", "L2"); ("L2", "L1"); ("L1", "S1")];
  NHDFlowline :=
    [ {| Permanent_Identifier := "L1"; WBArea_Permanent_Identifier := Some "W";
         FCode := 55800%Z |};
      {| Permanent_Identifier := "L2"; WBArea_Permanent_Identifier := Some "W";
         FCode := 55800%Z |};
      {| Permanent_Identifier := "S1"; WBArea_Permanent_Identifier := None;
         FCode := 46006%Z |} ];
  NHDWaterbody :=
    [ {| wb_Permanent_Identifier := "W"; AreaSqKm := (5 # 10)%Q; wb_FCode := 39004%Z |} ];
  lagos_pop := None
|}.

Definition two_flowline_lake : NHDNetwork := init two_flowline_lake_gdb.

(** One segment A that flows into three segments of the next subregions. *)
Definition three_sinks_gdb : geodatabase := {|
  NHDFlow := [("0", "A"); ("A", "N1"); ("A", "N2"); ("A", "N3")];
  NHDFlowline :=
    [ {| Permanent_Identifier := "A"; WBArea_Permanent_Identifier := None;
         FCode := 46006%Z |} ];
  NHDWaterbody := [];
  lagos_pop := None
|}.

Definition three_sinks : NHDNetwork := init three_sinks_gdb.

(** The two-flowline lake with every map loaded and the 10 ha lake W active
    as a barrier. *)
Definition two_flowline_lake_loaded : NHDNetwork :=
  run_state (prepare_upstream false;; prepare_downstream false;;
             map_waterbodies_to_flowlines;; map_flowlines_to_waterbodies;;
             activate_10ha_lake_stops [39004%Z])
            two_flowline_lake.

(** The two-flowline lake, fresh, with W set as a barrier by the caller. *)
Definition two_flowline_lake_stopped : NHDNetwork :=
  run_state (set_stop_ids ["W"]) two_flowline_lake.

(** A stream f1 into the 50 ha lake L1, on to the 5 ha lake L2 and out of the
    subregion, and the 20 ha lake I1 with no flowline. *)
Definition two_lakes_gdb : geodatabase := {|
  NHDFlow :=
    [("0", "f1"); ("f1", "l1"); ("l1", "f2"); ("f2", "l2"); ("l2", "f3"); ("f3", "n9")];
  NHDFlowline :=
    [ {| Permanent_Identifier := "f1"; WBArea_Permanent_Identifier := None;
         FCode := 46006%Z |};
      {| Permanent_Identifier := "l1"; WBArea_Permanent_Identifier := Some "L1";
         FCode := 55800%Z |};
      {| Permanent_Identifier := "f2"; WBArea_Permanent_Identifier := None;
         FCode := 46006%Z |};
      {| Permanent_Identifier := "l2"; WBArea_Permanent_Identifier := Some "L2";
         FCode := 55800%Z |};
      {| Permanent_Identifier := "f3"; WBArea_Permanent_Identifier := None;
         FCode := 46006%Z |} ];
  NHDWaterbody :=
    [ {| wb_Permanent_Identifier := "L1"; AreaSqKm := (5 # 10)%Q; wb_FCode := 39004%Z |};
      {| wb_Permanent_Identifier := "L2"; AreaSqKm := (5 # 100)%Q; wb_FCode := 39004%Z |};
      {| wb_Permanent_Identifier := "I1"; AreaSqKm := (2 # 10)%Q; wb_FCode := 39004%Z |} ];
  lagos_pop := None
|}.

(** The instance with L2 and I1 set as the focal lakes. *)
Definition two_lakes_focal : NHDNetwork :=
  run_state (set_start_ids ["L2"; "I1"]) (init two_lakes_gdb).

(** * Properties *)

Lemma dd_getitem_fst d k : (dd_getitem d k).1 = adj d k.
Proof. unfold dd_getitem, adj. by destruct (d !! k). Qed.

Lemma dd_getitem_adj d k k' : adj (dd_getitem d k).2 k' = adj d k'.
Proof.
  unfold dd_getitem, adj. destruct (d !! k) eqn:E; simpl; [done|].
  destruct (decide (k = k')) as [->|Hne].
  - by rewrite lookup_insert_eq, E.
  - by rewrite lookup_insert_ne.
Qed.

Lemma dd_getitem_dom d k : dom (dd_getitem d k).2 = {[k]} ∪ dom d.
Proof.
  unfold dd_getitem. destruct (d !! k) eqn:E; simpl.
  - apply elem_of_dom_2 in E. set_solver.
  - by rewrite dom_insert_L.
Qed.

Lemma dd_getitems_adj ks : ∀ d k', adj (dd_getitems d ks).2 k' = adj d k'.
Proof.
  induction ks as [|k ks IH]; intros d k'; simpl; [done|].
  destruct (dd_getitem d k) as [v d1] eqn:E1.
  destruct (dd_getitems d1 ks) as [vs d2] eqn:E2. simpl.
  specialize (IH d1 k'). rewrite E2 in IH. simpl in IH. rewrite IH.
  pose proof (dd_getitem_adj d k k') as H. by rewrite E1 in H.
Qed.

Lemma dd_getitems_fst ks : ∀ d, (dd_getitems d ks).1 = adj d <$> ks.
Proof.
  induction ks as [|k ks IH]; intros d; simpl; [done|].
  destruct (dd_getitem d k) as [v d1] eqn:E1.
  destruct (dd_getitems d1 ks) as [vs d2] eqn:E2. simpl.
  pose proof (dd_getitem_fst d k) as Hv. rewrite E1 in Hv. simpl in Hv. subst v.
  f_equal. specialize (IH d1). rewrite E2 in IH. simpl in IH. rewrite IH.
  apply list_fmap_ext. intros _ k' _.
  pose proof (dd_getitem_adj d k k') as H. by rewrite E1 in H.
Qed.

Lemma dd_getitems_dom ks : ∀ d, dom (dd_getitems d ks).2 = list_to_set ks ∪ dom d.
Proof.
  induction ks as [|k ks IH]; intros d; simpl; [set_solver|].
  destruct (dd_getitem d k) as [v d1] eqn:E1.
  destruct (dd_getitems d1 ks) as [vs d2] eqn:E2. simpl.
  specialize (IH d1). rewrite E2 in IH. simpl in IH. rewrite IH.
  pose proof (dd_getitem_dom d k) as H. rewrite E1 in H. simpl in H. rewrite H.
  set_solver.
Qed.

Lemma elem_of_concat {A} (x : A) (ls : list (list A)) :
  x ∈ concat ls ↔ ∃ l, x ∈ l ∧ l ∈ ls.
Proof.
  induction ls as [|l ls IH]; simpl.
  - split; [by intros ?%elem_of_nil|]. by intros (l & _ & ?%elem_of_nil).
  - rewrite elem_of_app, IH. split.
    + intros [H|(l' & H1 & H2)]; [exists l|exists l']; split; try done;
        [apply list_elem_of_here|by apply list_elem_of_further].
    + intros (l' & H1 & H2). apply elem_of_cons in H2 as [->|H2]; [by left|].
      right; eauto.
Qed.

Lemma elem_of_succs a stops F y :
    y ∈ succs a stops F ↔ (∃ k, k ∈ F ∧ y ∈ a k) ∧ y ∉ stops.
  Proof.
    assert (Hc : y ∈ concat (a <$> F) ↔ ∃ k, k ∈ F ∧ y ∈ a k).
    { rewrite elem_of_concat. split.
      - intros (l & Hy & Hl). apply list_elem_of_fmap in Hl as (k & -> & Hk). eauto.
      - intros (k & Hk & Hy). exists (a k). split; [done|].
        apply list_elem_of_fmap. eauto. }
    unfold succs, pyset. destruct stops as [|s l] eqn:E; cbn [list_empty].
    - rewrite elem_of_list_to_set, Hc. split; [|tauto].
      intros H. split; [done|]. apply not_elem_of_nil.
    - rewrite elem_of_difference, !elem_of_list_to_set, Hc. tauto.
  Qed.



Lemma trace_loop_S a stops n limit d F A :
  F ≠ [] → (∀ k, adj d k = a k) →
  ∃ d', (∀ k, adj d' k = a k) ∧ dom d ⊆ dom d' ∧
    trace_loop (S n) stops limit d F A =
    trace_loop n stops limit d' (step a stops limit F A).1 (step a stops limit F A).2.
Proof.
  intros HF Ha. exists (dd_getitems d F).2. split; [|split].
  - intros k. by rewrite dd_getitems_adj.
  - rewrite dd_getitems_dom. set_solver.
  - destruct F as [|f F]; [done|]. 
    change (trace_loop (S n) stops limit d (f :: F) A) with
      (let '(next_up, d') := dd_getitems d (f :: F) in
       let next_up_flat := pyset (concat next_up) in
       let next_up_flat :=
         if list_empty stops then next_up_flat else next_up_flat ∖ pyset stops in
      if bool_decide (limit ≤ length A)%nat then
        let all_from_ids := pylist (pyset A) in
        let from_ids := pylist (next_up_flat ∖ pyset all_from_ids) in
        trace_loop n stops limit d' from_ids (all_from_ids ++ from_ids)
      else
        let from_ids := pylist next_up_flat in
        trace_loop n stops limit d' from_ids (A ++ from_ids)).
    pose proof (dd_getitems_fst (f :: F) d) as H1.
    destruct (dd_getitems d (f :: F)) as [nu d'] eqn:E.
    cbn [fst snd] in *. subst nu.
    assert (Hx : adj d <$> (f :: F) = a <$> (f :: F)).
    { apply list_fmap_ext. intros; apply Ha. }
    rewrite Hx. unfold step, succs.
    by destruct (bool_decide (limit ≤ length A)%nat).
Qed.

Section TraceLoopFacts.
Context (a : string → list string) (stops : list string) (limit : nat).

Lemma pyset_pylist (X : gset string) : pyset (pylist X) = X.
Proof. apply list_to_set_elements_L. Qed.

Lemma elem_of_pyset l (y : string) : y ∈ pyset l ↔ y ∈ l.
Proof. apply elem_of_list_to_set. Qed.

Lemma elem_of_pylist (X : gset string) y : y ∈ pylist X ↔ y ∈ X.
Proof. apply elem_of_elements. Qed.

Lemma pyset_app l1 l2 : pyset (l1 ++ l2) = pyset l1 ∪ pyset l2.
Proof. apply list_to_set_app_L. Qed.

Lemma step_all F A : pyset (step a stops limit F A).2 = pyset A ∪ succs a stops F.
Proof.
  unfold step. case_bool_decide; cbn [snd]; rewrite pyset_app, !pyset_pylist.
  - apply set_eq. intros y. rewrite !elem_of_union, elem_of_difference.
    destruct (decide (y ∈ pyset A)); tauto.
  - done.
Qed.

Lemma step_frontier_sub F A y :
  y ∈ (step a stops limit F A).1 → y ∈ succs a stops F.
Proof.
  unfold step. case_bool_decide; cbn [fst]; rewrite elem_of_pylist; set_solver.
Qed.

Lemma step_frontier_new F A y :
  y ∈ succs a stops F → y ∉ A → y ∈ (step a stops limit F A).1.
Proof.
  intros Hy HA. unfold step. case_bool_decide; cbn [fst]; rewrite elem_of_pylist.
  - rewrite pyset_pylist, elem_of_difference, elem_of_pyset. done.
  - done.
Qed.

Lemma step_frontier_in_all F A y :
  y ∈ (step a stops limit F A).1 → y ∈ (step a stops limit F A).2.
Proof.
  unfold step. case_bool_decide; cbn [fst snd]; rewrite elem_of_app; auto.
Qed.

Lemma step_dedupe F A :
  limit ≤ length A → succs a stops F ⊆ pyset A → (step a stops limit F A).1 = [].
Proof.
  intros Hl Hs. unfold step. rewrite bool_decide_eq_true_2 by done. cbn [fst].
  rewrite pyset_pylist. replace (succs a stops F ∖ pyset A) with (∅ : gset string).
  - apply elements_empty.
  - symmetry. apply set_eq. intros y. rewrite elem_of_difference. set_solver.
Qed.

Lemma step_grow F A :
  length A < limit →
  length (step a stops limit F A).2 = length A + length (step a stops limit F A).1.
Proof.
  intros Hl. unfold step. rewrite bool_decide_eq_false_2 by lia. cbn [fst snd].
  apply length_app.
Qed.

Lemma succs_mono F y k : k ∈ F → y ∈ succs a stops [k] → y ∈ succs a stops F.
Proof.
  rewrite !elem_of_succs. intros Hk [(k' & Hk' & Hy) Hn].
  apply list_elem_of_singleton in Hk' as ->. eauto.
Qed.

Lemma trace_inv_init x : trace_inv a stops x (a x) (a x ++ [x]).
Proof.
  unfold trace_inv. split; [|split; [|split; [|split]]].
  - intros y Hy. apply elem_of_app. by left.
  - intros v [Hv|Hv]%elem_of_app; [by left|]. apply list_elem_of_singleton in Hv as ->.
    right. intros y [(k & Hk & Hy) _]%elem_of_succs.
    apply list_elem_of_singleton in Hk as ->.
    apply elem_of_pyset, elem_of_app. by left.
  - apply elem_of_app. right. apply list_elem_of_singleton. done.
  - intros y Hy. apply elem_of_app. by left.
  - intros v [Hv|Hv]%elem_of_app.
    + by apply reach_first.
    + apply list_elem_of_singleton in Hv as ->. apply reach_start.
Qed.

Lemma trace_inv_step x F A :
  trace_inv a stops x F A →
  trace_inv a stops x (step a stops limit F A).1 (step a stops limit F A).2.
Proof.
  intros (H1 & H2 & H3 & H4 & H5).
  assert (Hall : ∀ y, y ∈ (step a stops limit F A).2 ↔ y ∈ A ∨ y ∈ succs a stops F).
  { intros y. rewrite <- elem_of_pyset, step_all, elem_of_union, elem_of_pyset. done. }
  unfold trace_inv. split; [|split; [|split; [|split]]].
  - apply step_frontier_in_all.
  - intros v Hv. apply Hall in Hv.
    destruct (decide (v ∈ (step a stops limit F A).1)) as [|Hn]; [by left|right].
    intros y Hy. apply elem_of_pyset, Hall.
    destruct Hv as [Hv|Hv].
    + destruct (H2 v Hv) as [HF|Hd].
      * right. eapply succs_mono; eauto.
      * left. apply elem_of_pyset. by apply Hd.
    + destruct (decide (v ∈ A)) as [HA|HA].
      * destruct (H2 v HA) as [HF|Hd].
        -- right. eapply succs_mono; eauto.
        -- left. apply elem_of_pyset. by apply Hd.
      * exfalso. apply Hn. by apply step_frontier_new.
  - apply Hall. by left.
  - intros y Hy. apply Hall. left. by apply H4.
  - intros v [Hv|Hv]%Hall; [by apply H5|].
    apply elem_of_succs in Hv as [(k & Hk & Hy) Hn].
    apply (reach_step a stops x k v); auto.
Qed.

Lemma trace_inv_closed x A y :
  trace_inv a stops x [] A → reach a stops x y → y ∈ A.
Proof.
  intros (H1 & H2 & H3 & H4 & H5). induction 1 as [|y Hy|z y Hz IH Hy Hn]; auto.
  destruct (H2 z IH) as [HF|Hd]; [by apply elem_of_nil in HF|].
  apply elem_of_pyset, Hd, elem_of_succs. split; [|done].
  exists z. split; [|done]. apply list_elem_of_singleton. done.
Qed.

(** What the loop returns, when it returns. *)
Lemma trace_loop_sound x n : ∀ d F A R d',
  (∀ k, adj d k = a k) →
  trace_inv a stops x F A →
  trace_loop n stops limit d F A = Some (R, d') →
  (∀ k, adj d' k = a k) ∧ dom d ⊆ dom d' ∧ (∀ y, y ∈ R ↔ reach a stops x y).
Proof.
  induction n as [|n IH]; intros d F A R d' Ha Hinv Hrun.
  - destruct F; [|done]. simpl in Hrun. injection Hrun as <- <-.
    split; [done|]. split; [done|]. intros y. split.
    + apply Hinv.
    + by apply trace_inv_closed.
  - destruct (decide (F = [])) as [->|HF].
    + simpl in Hrun. injection Hrun as <- <-.
      split; [done|]. split; [done|]. intros y. split.
      * apply Hinv.
      * by apply trace_inv_closed.
    + destruct (trace_loop_S a stops n limit d F A HF Ha) as (d1 & Ha1 & Hdom & Heq).
      rewrite Heq in Hrun.
      destruct (IH _ _ _ _ _ Ha1 (trace_inv_step x F A Hinv) Hrun) as (? & ? & ?).
      split; [done|]. split; [set_solver|done].
Qed.
End TraceLoopFacts.

Lemma size_pyset_le l : size (pyset l) ≤ length l.
Proof.
  unfold pyset. induction l as [|y l IH].
  - rewrite list_to_set_nil, size_empty. done.
  - rewrite list_to_set_cons, size_union_alt, size_singleton.
    assert (Hs : list_to_set l ∖ {[y]} ⊆ (list_to_set l : gset string)) by set_solver.
    apply subseteq_size in Hs. simpl. lia.
Qed.

Lemma trace_loop_nil n stops limit d A :
  trace_loop n stops limit d [] A = Some (A, d).
Proof. by destruct n. Qed.

Section TraceLoopTermination.
Context (a : string → list string) (stops : list string) (limit : nat).
Context (K : gset string) (HK : ∀ k, a k ≠ [] → k ∈ K).

(** Once every visited id has all its neighbours visited, the loop only
    lengthens the list until the list reaches [limit]. *)
Lemma trace_loop_closed_terminates n : ∀ d F A,
  (∀ k, adj d k = a k) →
  (∀ v, v ∈ A → succs a stops [v] ⊆ pyset A) →
  (∀ y, y ∈ F → y ∈ A) →
  limit - length A + 1 ≤ n →
  is_Some (trace_loop n stops limit d F A).
Proof.
  induction n as [|n IH]; intros d F A Ha Hcl HF Hn; [lia|].
  destruct (decide (F = [])) as [->|HFne]; [by rewrite trace_loop_nil|].
  destruct (trace_loop_S a stops n limit d F A HFne Ha) as (d1 & Ha1 & _ & ->).
  assert (Hs : succs a stops F ⊆ pyset A).
  { intros y Hy. apply elem_of_succs in Hy as [(k & Hk & Hy) Hns].
    apply (Hcl k (HF k Hk)), elem_of_succs. split; [|done].
    exists k. split; [|done]. by apply list_elem_of_singleton. }
  assert (Hall : pyset (step a stops limit F A).2 = pyset A).
  { rewrite step_all. set_solver. }
  destruct (decide (limit ≤ length A)) as [Hl|Hl].
  - rewrite (step_dedupe a stops limit F A Hl Hs). by rewrite trace_loop_nil.
  - destruct (decide ((step a stops limit F A).1 = [])) as [E|E].
    { rewrite E. by rewrite trace_loop_nil. }
    apply IH; [done| | |].
    + intros v Hv. rewrite Hall. apply Hcl.
      by rewrite <- elem_of_pyset, Hall, elem_of_pyset in Hv.
    + apply step_frontier_in_all.
    + rewrite step_grow by lia.
      destruct ((step a stops limit F A).1); [done|]. simpl. lia.
Qed.

Lemma pending_mono V V' : V ⊆ V' → pending a stops K V' ⊆ pending a stops K V.
Proof.
  intros HV k. unfold pending. rewrite !elem_of_filter.
  intros [Hk ?]. split; [|done]. intros Hs. apply Hk. set_solver.
Qed.

Lemma trace_loop_terminates_inv x n : ∀ d F A,
  (∀ k, adj d k = a k) →
  trace_inv a stops x F A →
  Nat.max (size (pending a stops K (pyset A))) (limit - size (pyset A)) + 1 ≤ n →
  is_Some (trace_loop n stops limit d F A).
Proof.
  induction n as [|n IH]; intros d F A Ha Hinv Hn; [lia|].
  destruct (decide (F = [])) as [->|HFne]; [by rewrite trace_loop_nil|].
  destruct (decide (succs a stops F ⊆ pyset A)) as [Hs|Hs].
  - (* nothing left to discover *)
    apply trace_loop_closed_terminates; [done| | |].
    + intros v Hv. destruct Hinv as (_ & H2 & _).
      destruct (H2 v Hv) as [HF|Hd]; [|done].
      intros y Hy. apply Hs. eapply succs_mono; eauto.
    + apply Hinv.
    + pose proof (size_pyset_le A). lia.
  - (* a new id is discovered: a pending key is used up *)
    destruct (trace_loop_S a stops n limit d F A HFne Ha) as (d1 & Ha1 & _ & ->).
    apply (IH d1); [done|by apply trace_inv_step|].
    assert (∃ y, y ∈ succs a stops F ∧ y ∉ pyset A) as (y & Hy & HyA).
    { destruct (set_choose_or_empty (succs a stops F ∖ pyset A)) as [[y Hy]|He].
      - exists y. set_solver.
      - exfalso. apply Hs. set_solver. }
    pose proof Hy as Hy'.
    apply elem_of_succs in Hy' as [(k & Hk & Hyk) Hns].
    assert (HkK : k ∈ K). { apply HK. intros E. rewrite E in Hyk. by apply elem_of_nil in Hyk. }
    assert (Hyk' : y ∈ succs a stops [k]).
    { apply elem_of_succs. split; [|done]. exists k. split; [|done].
      by apply list_elem_of_singleton. }
    rewrite step_all.
    assert (size (pending a stops K (pyset A ∪ succs a stops F))
            < size (pending a stops K (pyset A))).
    { apply subset_size. split.
      - apply pending_mono. set_solver.
      - intros Hsub. assert (Hin : k ∈ pending a stops K (pyset A)).
        { unfold pending. apply elem_of_filter. split; [|done].
          intros Hsk. apply HyA. by apply Hsk. }
        apply Hsub in Hin. unfold pending in Hin. apply elem_of_filter in Hin as [Hin _].
        apply Hin. intros z Hz. apply elem_of_union. right. eapply succs_mono; eauto. }
    assert (size (pyset A) < size (pyset A ∪ succs a stops F)).
    { apply subset_size. split; [set_solver|]. intros Hsub. apply HyA, Hsub. set_solver. }
    lia.
Qed.
End TraceLoopTermination.

(** The flowline-level trace always ends, within [limit] iterations, and
    yields exactly the barrier-bounded network of its start. *)
Lemma trace_flowlines_spec stops d x :
  ∃ R d', trace_flowlines stops d x = Some (R, d') ∧
    (∀ k, adj d' k = adj d k) ∧
    {[x]} ∪ dom d ⊆ dom d' ∧
    (∀ y, y ∈ R ↔ reach (adj d) stops x y).
Proof.
  unfold trace_flowlines.
  pose proof (dd_getitem_fst d x) as Hfst.
  pose proof (dd_getitem_adj d x) as Hadj.
  pose proof (dd_getitem_dom d x) as Hdom.
  destruct (dd_getitem d x) as [from_ids d1]. cbn [fst snd] in *. subst from_ids.
  set (limit := size d1).
  assert (HK : ∀ k, adj d k ≠ [] → k ∈ dom d1).
  { intros k Hk. rewrite <- Hadj in Hk. unfold adj in Hk.
    apply elem_of_dom. destruct (d1 !! k); [eauto|done]. }
  assert (Hx : x ∈ dom d1) by (rewrite Hdom; set_solver).
  assert (Hlim : size (dom d1) = limit) by apply size_dom.
  pose proof (trace_inv_init (adj d) stops x) as Hinv.
  destruct (trace_loop_terminates_inv (adj d) stops limit (dom d1) HK x limit
              d1 (adj d x) (adj d x ++ [x]) Hadj Hinv) as [[R d'] Hrun].
  { assert (H1 : size (pending (adj d) stops (dom d1) (pyset (adj d x ++ [x])))
                 ≤ size (dom d1 ∖ {[x]})).
    { apply subseteq_size. intros k. unfold pending.
      rewrite elem_of_filter, elem_of_difference. intros [Hk HkK]. split; [done|].
      intros ->%elem_of_singleton. apply Hk.
      intros y [(k & Hk' & Hy) _]%elem_of_succs.
      apply list_elem_of_singleton in Hk' as ->.
      apply elem_of_pyset, elem_of_app. by left. }
    rewrite size_difference in H1 by set_solver. rewrite size_singleton in H1.
    assert (H2 : 1 ≤ size (pyset (adj d x ++ [x]))).
    { rewrite <- (size_singleton (C := gset string) x). apply subseteq_size.
      intros y ->%elem_of_singleton. apply elem_of_pyset, elem_of_app. right.
      by apply list_elem_of_singleton. }
    assert (H3 : 1 ≤ size (dom d1)).
    { rewrite <- (size_singleton (C := gset string) x). apply subseteq_size. set_solver. }
    lia. }
  exists R, d'. split; [done|].
  destruct (trace_loop_sound (adj d) stops limit x limit d1 _ _ R d' Hadj Hinv Hrun)
    as (Ha' & Hd' & HR).
  split; [done|]. split; [|done]. rewrite <- Hdom. done.
Qed.

(** ** Running the monad *)

Lemma bind_get {B} (k : NHDNetwork → M B) self : (get ≫= k) self = k self self.
Proof. done. Qed.

Lemma bind_modify {B} f (k : unit → M B) self : (modify f ≫= k) self = k () (f self).
Proof. done. Qed.

Lemma bind_ret {A B} (a : A) (k : A → M B) self : (mret a ≫= k) self = k a self.
Proof. done. Qed.

Lemma bind_raise {A B} e (k : A → M B) self : (raise e ≫= k) self = Raise e.
Proof. done. Qed.

Lemma bind_Ok {A B} (m : M A) (k : A → M B) self a self' :
  m self = Ok a self' → (m ≫= k) self = k a self'.
Proof. intros H. unfold mbind, M_bind. by rewrite H. Qed.

Lemma bind_Raise {A B} (m : M A) (k : A → M B) self e :
  m self = Raise e → (m ≫= k) self = Raise e.
Proof. intros H. unfold mbind, M_bind. by rewrite H. Qed.

Lemma bind_inv {A B} (m : M A) (k : A → M B) self b self' :
  (m ≫= k) self = Ok b self' → ∃ a s1, m self = Ok a s1 ∧ k a s1 = Ok b self'.
Proof. unfold mbind, M_bind. destruct (m self) as [a s1|e]; [eauto|done]. Qed.

Lemma bind_assoc {A B C} (m : M A) (k : A → M B) (h : B → M C) self :
  ((m ≫= k) ≫= h) self = (m ≫= λ a, k a ≫= h) self.
Proof. unfold mbind, M_bind. by destruct (m self). Qed.

Lemma ret_run {A} (a : A) self : mret (M := M) a self = Ok a self.
Proof. done. Qed.

Lemma modify_run f self : modify f self = Ok () (f self).
Proof. done. Qed.

Ltac msimpl :=
  repeat first
    [ rewrite bind_get | rewrite bind_modify | rewrite bind_ret | rewrite bind_raise
    | rewrite bind_assoc | rewrite ret_run | rewrite modify_run ]; cbv beta.

Lemma prepare_upstream_false self :
  prepare_upstream false self = Ok (upstream (ensure_upstream self)) (ensure_upstream self).
Proof.
  unfold prepare_upstream, ensure_upstream, when. msimpl.
  rewrite orb_false_r. destruct (dict_empty (upstream self)); by msimpl.
Qed.

Lemma prepare_downstream_false self :
  prepare_downstream false self
  = Ok (downstream (ensure_downstream self)) (ensure_downstream self).
Proof.
  unfold prepare_downstream, ensure_downstream, when. msimpl.
  rewrite orb_false_r. destruct (dict_empty (downstream self)); by msimpl.
Qed.

Lemma ensure_upstream_run self :
  (if dict_empty (upstream self) then prepare_upstream false;; mret () else mret ()) self
  = Ok () (ensure_upstream self).
Proof.
  unfold ensure_upstream. destruct (dict_empty (upstream self)) eqn:E; [|done].
  rewrite (bind_Ok _ _ _ _ _ (prepare_upstream_false self)).
  unfold ensure_upstream. by rewrite E.
Qed.

Lemma ensure_downstream_run self :
  (if dict_empty (downstream self) then prepare_downstream false;; mret () else mret ()) self
  = Ok () (ensure_downstream self).
Proof.
  unfold ensure_downstream. destruct (dict_empty (downstream self)) eqn:E; [|done].
  rewrite (bind_Ok _ _ _ _ _ (prepare_downstream_false self)).
  unfold ensure_downstream. by rewrite E.
Qed.

Lemma upstream_of_ensure self : upstream_of self = upstream (ensure_upstream self).
Proof. unfold upstream_of. by rewrite prepare_upstream_false. Qed.

Lemma downstream_of_ensure self : downstream_of self = downstream (ensure_downstream self).
Proof. unfold downstream_of. by rewrite prepare_downstream_false. Qed.

Lemma ensure_upstream_stops self :
  flowline_stop_ids (ensure_upstream self) = flowline_stop_ids self.
Proof. unfold ensure_upstream. by destruct (dict_empty (upstream self)). Qed.

Lemma ensure_downstream_stops self :
  flowline_stop_ids (ensure_downstream self) = flowline_stop_ids self.
Proof. unfold ensure_downstream. by destruct (dict_empty (downstream self)). Qed.

Lemma add_wb_permids_false all self :
  add_wb_permids false all self = Ok (pylist (pyset (pylist (pyset all)))) self.
Proof. done. Qed.

Lemma trace_up_from_a_flowline_unfold x b self :
  trace_up_from_a_flowline x b self =
  match trace_flowlines (flowline_stop_ids self) (upstream_of self) x with
  | None => Raise NonTermination
  | Some (all, d) => add_wb_permids b all (set_upstream d (ensure_upstream self))
  end.
Proof.
  rewrite upstream_of_ensure, <- ensure_upstream_stops.
  unfold trace_up_from_a_flowline. msimpl.
  rewrite (bind_Ok _ _ _ _ _ (ensure_upstream_run self)). msimpl.
  destruct (trace_flowlines _ _ x) as [[all d]|]; by msimpl.
Qed.

Lemma trace_down_from_a_flowline_unfold x b self :
  trace_down_from_a_flowline x b self =
  match trace_flowlines (flowline_stop_ids self) (downstream_of self) x with
  | None => Raise NonTermination
  | Some (all, d) => add_wb_permids b all (set_downstream d (ensure_downstream self))
  end.
Proof.
  rewrite downstream_of_ensure, <- ensure_downstream_stops.
  unfold trace_down_from_a_flowline. msimpl.
  rewrite (bind_Ok _ _ _ _ _ (ensure_downstream_run self)). msimpl.
  destruct (trace_flowlines _ _ x) as [[all d]|]; by msimpl.
Qed.

Lemma add_wb_permids_Ok b all self :
  ∃ R self', add_wb_permids b all self = Ok R self'.
Proof.
  destruct b; [|by rewrite add_wb_permids_false; eauto].
  unfold add_wb_permids. msimpl.
  destruct (dict_empty (flowline_waterbody self)).
  - unfold map_flowlines_to_waterbodies. msimpl. eauto.
  - msimpl. eauto.
Qed.

Lemma reach_nil_reachable d x y : reach (adj d) [] x y ↔ reachable d x y.
Proof.
  unfold reachable. split.
  - induction 1 as [|y Hy|z y Hz IH Hy Hn].
    + apply rtc_refl.
    + by apply rtc_once.
    + eapply rtc_r; eauto.
  - intros H. pattern y. eapply rtc_ind_r; [| |exact H].
    + apply reach_start.
    + intros z w _ Hzw IH. eapply reach_step; eauto. apply not_elem_of_nil.
Qed.

Lemma reach_ext a a' stops x y :
  (∀ k, a k = a' k) → reach a stops x y → reach a' stops x y.
Proof.
  intros Ha. induction 1 as [|y Hy|z y Hz IH Hy Hn].
  - apply reach_start.
  - apply reach_first. by rewrite <- Ha.
  - eapply reach_step; eauto. by rewrite <- Ha.
Qed.

(** The flowline-only trace, in either direction, as a set. *)
Lemma trace_up_from_a_flowline_spec self x :
  ∃ R self', trace_up_from_a_flowline x false self = Ok R self' ∧
    R = pylist (pyset R) ∧
    ∀ y, y ∈ R ↔ reach (adj (upstream_of self)) (flowline_stop_ids self) x y.
Proof.
  rewrite trace_up_from_a_flowline_unfold.
  destruct (trace_flowlines_spec (flowline_stop_ids self) (upstream_of self) x)
    as (R & d' & -> & _ & _ & HR).
  rewrite add_wb_permids_false. eexists _, _. split; [done|]. split.
  - by rewrite !pyset_pylist.
  - intros y. by rewrite elem_of_pylist, elem_of_pyset, elem_of_pylist, elem_of_pyset.
Qed.

Lemma trace_down_from_a_flowline_spec self x :
  ∃ R self', trace_down_from_a_flowline x false self = Ok R self' ∧
    R = pylist (pyset R) ∧
    ∀ y, y ∈ R ↔ reach (adj (downstream_of self)) (flowline_stop_ids self) x y.
Proof.
  rewrite trace_down_from_a_flowline_unfold.
  destruct (trace_flowlines_spec (flowline_stop_ids self) (downstream_of self) x)
    as (R & d' & -> & _ & _ & HR).
  rewrite add_wb_permids_false. eexists _, _. split; [done|]. split.
  - by rewrite !pyset_pylist.
  - intros y. by rewrite elem_of_pylist, elem_of_pyset, elem_of_pylist, elem_of_pyset.
Qed.

(** Two duplicate-free lists built by [list(set(..))] with the same members
    are the same list. *)
Lemma pylist_pyset_ext l1 l2 :
  (∀ y : string, y ∈ l1 ↔ y ∈ l2) → pylist (pyset l1) = pylist (pyset l2).
Proof.
  intros H. f_equal. apply set_eq. intros y. by rewrite !elem_of_pyset.
Qed.

(** ** The tracer *)

(** C1: with no active barriers the flowline-level upstream trace of [x] is
    exactly the set of ids reachable from [x] through the upstream adjacency,
    [x] included, and the downstream trace is the same for the downstream
    adjacency; two networks with the same reachable set from [x] (a cyclic
    one and its unrolled equivalent) give the same trace. *)
Theorem trace_is_reachable_set self x :
  flowline_stop_ids self = [] →
  (∃ R self', trace_up_from_a_flowline x false self = Ok R self' ∧ NoDup R ∧
     ∀ y, y ∈ R ↔ reachable (upstream_of self) x y) ∧
  (∃ R self', trace_down_from_a_flowline x false self = Ok R self' ∧ NoDup R ∧
     ∀ y, y ∈ R ↔ reachable (downstream_of self) x y) ∧
  (∀ other R1 s1 R2 s2,
     flowline_stop_ids other = [] →
     (∀ y, reachable (upstream_of self) x y ↔ reachable (upstream_of other) x y) →
     trace_up_from_a_flowline x false self = Ok R1 s1 →
     trace_up_from_a_flowline x false other = Ok R2 s2 →
     R1 = R2) ∧
  (∀ other R1 s1 R2 s2,
     flowline_stop_ids other = [] →
     (∀ y, reachable (downstream_of self) x y ↔ reachable (downstream_of other) x y) →
     trace_down_from_a_flowline x false self = Ok R1 s1 →
     trace_down_from_a_flowline x false other = Ok R2 s2 →
     R1 = R2).
Proof.
  intros Hstops.
  destruct (trace_up_from_a_flowline_spec self x) as (Ru & su & Hu & Hcu & HRu).
  destruct (trace_down_from_a_flowline_spec self x) as (Rd & sd & Hd & Hcd & HRd).
  rewrite Hstops in HRu, HRd.
  split; [|split; [|split]].
  - exists Ru, su. split; [done|]. split.
    + rewrite Hcu. apply NoDup_elements.
    + intros y. by rewrite HRu, reach_nil_reachable.
  - exists Rd, sd. split; [done|]. split.
    + rewrite Hcd. apply NoDup_elements.
    + intros y. by rewrite HRd, reach_nil_reachable.
  - intros other R1 s1 R2 s2 Ho Hsame H1 H2.
    destruct (trace_up_from_a_flowline_spec other x) as (Ro & so & Ho' & Hco & HRo).
    rewrite Ho in HRo. rewrite Hu in H1. rewrite Ho' in H2.
    injection H1 as <- <-. injection H2 as <- <-.
    rewrite Hcu, Hco. apply pylist_pyset_ext. intros y.
    by rewrite HRu, HRo, !reach_nil_reachable.
  - intros other R1 s1 R2 s2 Ho Hsame H1 H2.
    destruct (trace_down_from_a_flowline_spec other x) as (Ro & so & Ho' & Hco & HRo).
    rewrite Ho in HRo. rewrite Hd in H1. rewrite Ho' in H2.
    injection H1 as <- <-. injection H2 as <- <-.
    rewrite Hcd, Hco. apply pylist_pyset_ext. intros y.
    by rewrite HRd, HRo, !reach_nil_reachable.
Qed.

Lemma trace_is_reachable_set_witness :
  ∃ R self', trace_up_from_a_flowline "D" false chain = Ok R self' ∧ NoDup R ∧
    ∀ y, y ∈ R ↔ reachable (upstream_of chain) "D" y.
Proof. exact (proj1 (trace_is_reachable_set chain "D" eq_refl)). Defined.

Lemma trace_up_from_a_flowline_Ok x b self :
  ∃ R self', trace_up_from_a_flowline x b self = Ok R self'.
Proof.
  rewrite trace_up_from_a_flowline_unfold.
  destruct (trace_flowlines_spec (flowline_stop_ids self) (upstream_of self) x)
    as (R & d' & -> & _). apply add_wb_permids_Ok.
Qed.

Lemma trace_down_from_a_flowline_Ok x b self :
  ∃ R self', trace_down_from_a_flowline x b self = Ok R self'.
Proof.
  rewrite trace_down_from_a_flowline_unfold.
  destruct (trace_flowlines_spec (flowline_stop_ids self) (downstream_of self) x)
    as (R & d' & -> & _). apply add_wb_permids_Ok.
Qed.

(** C2: every flowline-level trace, in either direction, with or without
    waterbody ids, on any network and any barrier configuration, returns.
    The loop started by a trace ends within [limit] iterations, [limit]
    being the number of keys of the adjacency dict; and an iteration entered
    with a list of [limit] or more ids only puts ids in the frontier that
    the list does not hold yet. *)
Theorem traces_terminate :
  (∀ self x b, ∃ R self', trace_up_from_a_flowline x b self = Ok R self') ∧
  (∀ self x b, ∃ R self', trace_down_from_a_flowline x b self = Ok R self') ∧
  (∀ stops d x,
     let '(from_ids, d1) := dd_getitem d x in
     let limit := size d1 in
     is_Some (trace_loop limit stops limit d1 from_ids (from_ids ++ [x]))) ∧
  (∀ a stops limit F A y,
     limit ≤ length A → y ∈ (step a stops limit F A).1 → y ∉ A).
Proof.
  split; [|split; [|split]].
  - intros self x b. apply trace_up_from_a_flowline_Ok.
  - intros self x b. apply trace_down_from_a_flowline_Ok.
  - intros stops d x.
    destruct (trace_flowlines_spec stops d x) as (R & d' & Hrun & _).
    unfold trace_flowlines in Hrun. destruct (dd_getitem d x) as [from_ids d1].
    cbv zeta. rewrite Hrun. eauto.
  - intros a stops limit F A y Hl Hy HA. unfold step in Hy.
    rewrite bool_decide_eq_true_2 in Hy by done. cbn [fst] in Hy.
    rewrite elem_of_pylist, pyset_pylist, elem_of_difference, elem_of_pyset in Hy.
    tauto.
Qed.

(** C10: a flowline id with no entry in the upstream dict is a valid start:
    its trace is the one-element list of itself, whatever the barriers. *)
Theorem trace_up_unknown_flowline self f :
  upstream_of self !! f = None →
  ∃ self', trace_up_from_a_flowline f false self = Ok [f] self'.
Proof.
  intros Hf. rewrite trace_up_from_a_flowline_unfold.
  unfold trace_flowlines, dd_getitem. rewrite Hf. cbn [app].
  rewrite trace_loop_nil, add_wb_permids_false. eexists. f_equal.
  unfold pylist, pyset. rewrite list_to_set_elements_L.
  rewrite list_to_set_cons, list_to_set_nil, (right_id_L ∅ (∪)).
  apply elements_singleton.
Qed.

Lemma trace_up_unknown_flowline_witness :
  upstream_of chain_barrier_B !! "Z" = None ∧
  ∃ self', trace_up_from_a_flowline "Z" false chain_barrier_B = Ok ["Z"] self'.
Proof.
  split; [reflexivity|].
  apply (trace_up_unknown_flowline chain_barrier_B "Z"). reflexivity.
Defined.

Lemma reach_avoiding a stops x b y :
  b ∈ stops → b ≠ x → b ∉ a x →
  reach a stops x y → y ≠ b ∧ rtc (λ u v, v ∈ a u ∧ v ≠ b) x y.
Proof.
  intros Hb Hx Hn. induction 1 as [|y Hy|z y Hz [IH1 IH2] Hy Hns].
  - split; [done|]. apply rtc_refl.
  - assert (y ≠ b) by (by intros ->). split; [done|]. by apply rtc_once.
  - assert (y ≠ b) by (by intros ->). split; [done|]. eapply rtc_r; eauto.
Qed.

(** C3, as the code has it: an active barrier [b] that is neither the start
    nor one of its immediate neighbours is left out of the flowline-level
    trace together with everything that lies beyond it: every id of the
    trace is reached from the start by hops that never land on [b].  On the
    chain A → B → C → D with a barrier at B the upstream trace of D is
    {C, D}. *)
Theorem barrier_bounds_trace self x b :
  b ∈ flowline_stop_ids self → b ≠ x →
  (b ∉ adj (upstream_of self) x →
   ∃ R self', trace_up_from_a_flowline x false self = Ok R self' ∧ b ∉ R ∧
     ∀ y, y ∈ R → rtc (flows_avoiding (upstream_of self) b) x y) ∧
  (b ∉ adj (downstream_of self) x →
   ∃ R self', trace_down_from_a_flowline x false self = Ok R self' ∧ b ∉ R ∧
     ∀ y, y ∈ R → rtc (flows_avoiding (downstream_of self) b) x y) ∧
  (∃ self', trace_up_from_a_flowline "D" false chain_barrier_B = Ok ["C"; "D"] self').
Proof.
  intros Hb Hx. split; [|split].
  - intros Hn.
    destruct (trace_up_from_a_flowline_spec self x) as (R & s & HR & _ & Hin).
    exists R, s. split; [done|]. split.
    + intros HbR. apply Hin in HbR.
      by destruct (reach_avoiding _ _ _ _ _ Hb Hx Hn HbR).
    + intros y Hy. apply Hin in Hy.
      by destruct (reach_avoiding _ _ _ _ _ Hb Hx Hn Hy).
  - intros Hn.
    destruct (trace_down_from_a_flowline_spec self x) as (R & s & HR & _ & Hin).
    exists R, s. split; [done|]. split.
    + intros HbR. apply Hin in HbR.
      by destruct (reach_avoiding _ _ _ _ _ Hb Hx Hn HbR).
    + intros y Hy. apply Hin in Hy.
      by destruct (reach_avoiding _ _ _ _ _ Hb Hx Hn Hy).
  - eexists. vm_compute. reflexivity.
Qed.

Lemma barrier_bounds_trace_witness :
  ∃ R self', trace_up_from_a_flowline "D" false chain_barrier_B = Ok R self' ∧ "B" ∉ R ∧
    ∀ y, y ∈ R → rtc (flows_avoiding (upstream_of chain_barrier_B) "B") "D" y.
Proof.
  refine (proj1 (barrier_bounds_trace chain_barrier_B "D" "B" _ _) _).
  - apply list_elem_of_here.
  - discriminate.
  - vm_compute. intros H. by repeat (apply elem_of_cons in H as [H|H]; [done|]); apply elem_of_nil in H.
Defined.

(** On the chain with a barrier at B, the upstream trace of D reaches B
    (B is the upstream neighbour of C, which is traced) and yet is {C, D},
    not {B, C, D}. *)
Lemma chain_barrier_counterexample :
  ∃ R self', trace_up_from_a_flowline "D" false chain_barrier_B = Ok R self' ∧
    R = ["C"; "D"] ∧ "C" ∈ R ∧ flows (upstream_of chain_barrier_B) "C" "B" ∧
    "B" ∈ flowline_stop_ids chain_barrier_B ∧ "B" ∉ R ∧
    ¬ (∀ y, y ∈ R ↔ y ∈ ["B"; "C"; "D"]).
Proof.
  eexists _, _. split; [vm_compute; reflexivity|].
  assert (HB : "B" ∉ ["C"; "D"]).
  { intros H. apply elem_of_cons in H as [H|H]; [done|].
    apply elem_of_cons in H as [H|H]; [done|]. by apply elem_of_nil in H. }
  split; [done|]. split; [apply list_elem_of_here|]. split.
  { vm_compute. apply list_elem_of_here. }
  split; [apply list_elem_of_here|]. split; [done|].
  intros H. apply HB, H, list_elem_of_here.
Qed.

(** ** Lake outlets *)

Lemma ensure_waterbody_flowline_run self :
  when (dict_empty (waterbody_flowline self)) map_waterbodies_to_flowlines self
  = Ok () (ensure_waterbody_flowline self).
Proof.
  unfold when, ensure_waterbody_flowline, map_waterbodies_to_flowlines.
  destruct (dict_empty (waterbody_flowline self)); by msimpl.
Qed.

Lemma waterbody_flowline_of_ensure self :
  waterbody_flowline_of self = waterbody_flowline (ensure_waterbody_flowline self).
Proof. unfold waterbody_flowline_of. by rewrite ensure_waterbody_flowline_run. Qed.

Lemma ensure_waterbody_flowline_upstream self :
  upstream (ensure_waterbody_flowline self) = upstream self.
Proof. unfold ensure_waterbody_flowline. by destruct (dict_empty _). Qed.

Lemma ensure_upstream_waterbody_flowline self :
  waterbody_flowline (ensure_upstream self) = waterbody_flowline self.
Proof. unfold ensure_upstream. by destruct (dict_empty _). Qed.

Lemma ensure_upstream_gdb self : gdb (ensure_upstream self) = gdb self.
Proof. unfold ensure_upstream. by destruct (dict_empty _). Qed.

Lemma ensure_waterbody_flowline_ensure_upstream self :
  waterbody_flowline (ensure_waterbody_flowline (ensure_upstream self))
  = waterbody_flowline (ensure_waterbody_flowline self).
Proof.
  unfold ensure_waterbody_flowline.
  rewrite ensure_upstream_waterbody_flowline, ensure_upstream_gdb.
  destruct (dict_empty (waterbody_flowline self)); [done|].
  apply ensure_upstream_waterbody_flowline.
Qed.

(** What [identify_lake_outlets] returns and the instance it leaves. *)
Lemma identify_lake_outlets_unfold w self :
  let s1 := ensure_waterbody_flowline (ensure_upstream self) in
  let own := pyset (adj (waterbody_flowline s1) w) in
  identify_lake_outlets w self =
  Ok (pylist (own ∖ pyset (concat (adj (upstream s1) <$> pylist own))))
     (set_upstream (dd_getitems (upstream s1) (pylist own)).2
        (set_waterbody_flowline (dd_getitem (waterbody_flowline s1) w).2 s1)).
Proof.
  cbv zeta. unfold identify_lake_outlets. msimpl.
  rewrite (bind_Ok _ _ _ _ _ (ensure_upstream_run self)). msimpl.
  rewrite (bind_Ok _ _ _ _ _ (ensure_waterbody_flowline_run _)). msimpl.
  set (s1 := ensure_waterbody_flowline (ensure_upstream self)).
  pose proof (dd_getitem_fst (waterbody_flowline s1) w) as Hown.
  destruct (dd_getitem (waterbody_flowline s1) w) as [own wf] eqn:E1.
  cbn [fst snd] in *. subst own. msimpl.
  pose proof (dd_getitems_fst (pylist (pyset (adj (waterbody_flowline s1) w)))
                (upstream s1)) as Hnext.
  destruct (dd_getitems (upstream s1) _) as [next_up up] eqn:E2.
  cbn [fst snd] in *. subst next_up. by msimpl.
Qed.

(** C6, as the code has it: the outlets of a waterbody are exactly those of
    its own flowline ids that are not an upstream neighbour of any of its own
    flowlines, that is, that flow into none of them; for the lake with L2
    feeding the outlet L1 the result is [L1]. *)
Theorem lake_outlets_feed_no_own_flowline :
  (∀ self w,
     ∃ R self', identify_lake_outlets w self = Ok R self' ∧ NoDup R ∧
       ∀ y, y ∈ R ↔
            y ∈ own_flowlines self w ∧
            ∀ g, g ∈ own_flowlines self w → ¬ flows (upstream_of self) g y) ∧
  (∃ self', identify_lake_outlets "W" two_flowline_lake = Ok ["L1"] self').
Proof.
  split; [|eexists; vm_compute; reflexivity].
  intros self w. pose proof (identify_lake_outlets_unfold w self) as H.
  cbv zeta in H. eexists _, _. split; [exact H|]. split; [apply NoDup_elements|].
  unfold own_flowlines, flows.
  rewrite waterbody_flowline_of_ensure, upstream_of_ensure.
  rewrite ensure_waterbody_flowline_ensure_upstream, ensure_waterbody_flowline_upstream.
  intros y. rewrite elem_of_pylist, elem_of_difference, !elem_of_pyset.
  rewrite elem_of_concat. split.
  - intros [Hy Hn]. split; [done|]. intros g Hg Hgy. apply Hn.
    exists (adj (upstream (ensure_upstream self)) g). split; [done|].
    apply list_elem_of_fmap. exists g. split; [done|].
    by apply elem_of_pylist, elem_of_pyset.
  - intros [Hy Hn]. split; [done|]. intros (l & Hyl & Hl).
    apply list_elem_of_fmap in Hl as (g & -> & Hg).
    apply elem_of_pylist, elem_of_pyset in Hg. by apply (Hn g).
Qed.

(** The lake with L2 feeding L1: the code returns [L1], although L1 has the
    upstream neighbour L2 within the lake's own flowlines; the ids with no
    upstream neighbour within the lake are {L2}. *)
Lemma lake_outlets_counterexample :
  ∃ R self', identify_lake_outlets "W" two_flowline_lake = Ok R self' ∧
    R = ["L1"] ∧
    ¬ (∀ y, y ∈ R ↔
            y ∈ own_flowlines two_flowline_lake "W" ∧
            ∀ z, flows (upstream_of two_flowline_lake) y z →
                 z ∉ own_flowlines two_flowline_lake "W").
Proof.
  eexists _, _. split; [vm_compute; reflexivity|]. split; [done|].
  intros H. destruct (proj1 (H "L1") (list_elem_of_here _ _)) as [_ Hn].
  apply (Hn "L2").
  - vm_compute. apply list_elem_of_here.
  - vm_compute. apply list_elem_of_further, list_elem_of_here.
Qed.

(** ** Methods that always return *)

Lemma for_each_Ok {A B} (f : A → M B) :
  (∀ x s, ∃ y s', f x s = Ok y s') → ∀ l s, ∃ ys s', for_each f l s = Ok ys s'.
Proof.
  intros Hf l. induction l as [|x l IH]; intros s; cbn [for_each].
  - msimpl. eauto.
  - destruct (Hf x s) as (y & s1 & Hy). rewrite (bind_Ok _ _ _ _ _ Hy).
    destruct (IH s1) as (ys & s2 & Hys). rewrite (bind_Ok _ _ _ _ _ Hys).
    msimpl. eauto.
Qed.

(** ** What a method leaves unchanged *)

Lemma dict_empty_true {V} (d : gmap string V) : dict_empty d = true ↔ d = ∅.
Proof.
  unfold dict_empty. rewrite bool_decide_eq_true. apply map_size_empty_iff.
Qed.

Lemma dict_empty_dom (d : gmap string (list string)) :
  dict_empty d = true ↔ dom d = ∅.
Proof. rewrite dict_empty_true. symmetry. apply dom_empty_iff_L. Qed.

Lemma dict_grows_refl d : dict_grows d d.
Proof. by split. Qed.

Lemma dict_grows_trans d1 d2 d3 :
  dict_grows d1 d2 → dict_grows d2 d3 → dict_grows d1 d3.
Proof.
  intros [H1 H2] [H3 H4]. split; [|set_solver].
  intros k. by rewrite H3, H1.
Qed.

Lemma dd_getitem_grows d k : dict_grows d (dd_getitem d k).2.
Proof.
  split; [apply dd_getitem_adj|]. rewrite dd_getitem_dom. set_solver.
Qed.

Lemma dd_getitems_grows d ks : dict_grows d (dd_getitems d ks).2.
Proof.
  split; [apply dd_getitems_adj|]. rewrite dd_getitems_dom. set_solver.
Qed.

Lemma upstream_of_eq self :
  upstream_of self =
  if dict_empty (upstream self)
  then foldl (upstream_row (intermit_flowline_ids self)) ∅ (NHDFlow (gdb self))
  else upstream self.
Proof.
  rewrite upstream_of_ensure. unfold ensure_upstream.
  by destruct (dict_empty (upstream self)).
Qed.

Lemma downstream_of_eq self :
  downstream_of self =
  if dict_empty (downstream self)
  then foldl (downstream_row (intermit_flowline_ids self)) ∅ (NHDFlow (gdb self))
  else downstream self.
Proof.
  rewrite downstream_of_ensure. unfold ensure_downstream.
  by destruct (dict_empty (downstream self)).
Qed.

Lemma waterbody_flowline_of_eq self :
  waterbody_flowline_of self =
  if dict_empty (waterbody_flowline self)
  then foldl waterbody_flowline_row ∅ (NHDFlowline (gdb self))
  else waterbody_flowline self.
Proof.
  rewrite waterbody_flowline_of_ensure. unfold ensure_waterbody_flowline.
  destruct (dict_empty (waterbody_flowline self)) eqn:E; [|done].
  apply dict_empty_true in E. by rewrite E.
Qed.

Lemma flowline_waterbody_of_eq self :
  flowline_waterbody_of self =
  if dict_empty (flowline_waterbody self)
  then dict_of_pairs
         (omap (λ r, if truthy (WBArea_Permanent_Identifier r)
                     then pair (Permanent_Identifier r) <$> WBArea_Permanent_Identifier r
                     else None)
               (NHDFlowline (gdb self)))
  else flowline_waterbody self.
Proof.
  unfold flowline_waterbody_of, map_flowlines_to_waterbodies.
  by destruct (dict_empty (flowline_waterbody self)).
Qed.

(** A dict that grew out of the loaded one is what the next load-if-empty
    step yields. *)
Lemma grown_dict_loaded (L d d' : gmap string (list string)) :
  dict_grows (if dict_empty d then L else d) d' →
  dict_grows (if dict_empty d then L else d) (if dict_empty d' then L else d').
Proof.
  intros Hg. destruct (dict_empty d') eqn:E'; [|done].
  apply dict_empty_dom in E'. destruct Hg as [_ Hdom]. rewrite E' in Hdom.
  destruct (dict_empty d) eqn:E; [apply dict_grows_refl|].
  assert (dict_empty d = true) as Habs by (apply dict_empty_dom; set_solver).
  congruence.
Qed.

Lemma upstream_of_grown s s' :
  gdb s' = gdb s → intermit_flowline_ids s' = intermit_flowline_ids s →
  dict_grows (upstream_of s) (upstream s') →
  dict_grows (upstream_of s) (upstream_of s').
Proof.
  intros Hg Hi. rewrite !upstream_of_eq, Hg, Hi. apply grown_dict_loaded.
Qed.

Lemma downstream_of_grown s s' :
  gdb s' = gdb s → intermit_flowline_ids s' = intermit_flowline_ids s →
  dict_grows (downstream_of s) (downstream s') →
  dict_grows (downstream_of s) (downstream_of s').
Proof.
  intros Hg Hi. rewrite !downstream_of_eq, Hg, Hi. apply grown_dict_loaded.
Qed.

Lemma waterbody_flowline_of_grown s s' :
  gdb s' = gdb s →
  dict_grows (waterbody_flowline_of s) (waterbody_flowline s') →
  dict_grows (waterbody_flowline_of s) (waterbody_flowline_of s').
Proof.
  intros Hg. rewrite !waterbody_flowline_of_eq, Hg. apply grown_dict_loaded.
Qed.

Lemma flowline_waterbody_of_loaded s s' :
  gdb s' = gdb s →
  flowline_waterbody s' = flowline_waterbody_of s →
  flowline_waterbody_of s' = flowline_waterbody_of s.
Proof.
  intros Hg Hfw. rewrite (flowline_waterbody_of_eq s'), Hg, Hfw.
  destruct (dict_empty (flowline_waterbody_of s)) eqn:E; [|done].
  apply dict_empty_true in E. rewrite E. rewrite flowline_waterbody_of_eq in E.
  destruct (dict_empty (flowline_waterbody s)) eqn:E2; [done|].
  apply dict_empty_true in E. congruence.
Qed.

Lemma same_network_refl s : same_network s s.
Proof. unfold same_network. repeat split; done. Qed.

Lemma same_network_trans s1 s2 s3 :
  same_network s1 s2 → same_network s2 s3 → same_network s1 s3.
Proof.
  intros (A1 & A2 & A3 & A4 & A5 & A6 & A7) (B1 & B2 & B3 & B4 & B5 & B6 & B7).
  unfold same_network.
  split; [congruence|]. split; [congruence|]. split; [congruence|].
  split; [eapply dict_grows_trans; eauto|].
  split; [eapply dict_grows_trans; eauto|].
  split; [eapply dict_grows_trans; eauto|]. congruence.
Qed.

Lemma same_config_refl s : same_config s s.
Proof. unfold same_config. repeat split; done. Qed.

Lemma same_config_trans s1 s2 s3 :
  same_config s1 s2 → same_config s2 s3 → same_config s1 s3.
Proof. unfold same_config. intros H1 H2. destruct_and!. repeat split; congruence. Qed.

Lemma same_stops_refl s : same_stops s s.
Proof. by split. Qed.

Lemma same_stops_trans s1 s2 s3 :
  same_stops s1 s2 → same_stops s2 s3 → same_stops s1 s3.
Proof. unfold same_stops. intros [? ?] [? ?]. split; congruence. Qed.

Lemma raw_grows_refl s : raw_grows s s.
Proof. by repeat split. Qed.

Lemma raw_grows_trans s1 s2 s3 : raw_grows s1 s2 → raw_grows s2 s3 → raw_grows s1 s3.
Proof. intros (A1 & A2 & A3) (B1 & B2 & B3). repeat split; set_solver. Qed.

Lemma frame_refl s : frame s s.
Proof.
  split; [apply same_network_refl|]. split; [apply same_config_refl|].
  split; [apply same_stops_refl|apply raw_grows_refl].
Qed.

Lemma frame_trans s1 s2 s3 : frame s1 s2 → frame s2 s3 → frame s1 s3.
Proof.
  intros (A1 & A2 & A3 & A4) (B1 & B2 & B3 & B4). split; [|split; [|split]].
  - eapply same_network_trans; eauto.
  - eapply same_config_trans; eauto.
  - eapply same_stops_trans; eauto.
  - eapply raw_grows_trans; eauto.
Qed.

Lemma dom_upstream_loaded s : dom (upstream s) ⊆ dom (upstream_of s).
Proof.
  rewrite upstream_of_eq. destruct (dict_empty (upstream s)) eqn:E; [|done].
  apply dict_empty_dom in E. rewrite E. set_solver.
Qed.

Lemma dom_downstream_loaded s : dom (downstream s) ⊆ dom (downstream_of s).
Proof.
  rewrite downstream_of_eq. destruct (dict_empty (downstream s)) eqn:E; [|done].
  apply dict_empty_dom in E. rewrite E. set_solver.
Qed.

Lemma dom_waterbody_flowline_loaded s :
  dom (waterbody_flowline s) ⊆ dom (waterbody_flowline_of s).
Proof.
  rewrite waterbody_flowline_of_eq.
  destruct (dict_empty (waterbody_flowline s)) eqn:E; [|done].
  apply dict_empty_dom in E. rewrite E. set_solver.
Qed.

Ltac of_eq :=
  rewrite ?upstream_of_eq, ?downstream_of_eq, ?waterbody_flowline_of_eq,
    ?flowline_waterbody_of_eq; cbn.

Lemma frame_set_upstream s d :
  dict_grows (upstream_of s) d → frame s (set_upstream d s).
Proof.
  intros Hd. split; [|split; [repeat split|split; [by split|]]].
  2:{ split; [|by split]. cbn. pose proof (dom_upstream_loaded s). destruct Hd. set_solver. }
  unfold same_network. split; [done|]. split; [done|]. split; [done|].
  split; [by apply upstream_of_grown|].
  split; [of_eq; apply dict_grows_refl|].
  split; [of_eq; apply dict_grows_refl|]. by of_eq.
Qed.

Lemma frame_set_downstream s d :
  dict_grows (downstream_of s) d → frame s (set_downstream d s).
Proof.
  intros Hd. split; [|split; [repeat split|split; [by split|]]].
  2:{ split; [done|]. split; [|done]. cbn. pose proof (dom_downstream_loaded s).
      destruct Hd. set_solver. }
  unfold same_network. split; [done|]. split; [done|]. split; [done|].
  split; [of_eq; apply dict_grows_refl|].
  split; [by apply downstream_of_grown|].
  split; [of_eq; apply dict_grows_refl|]. by of_eq.
Qed.

Lemma frame_set_waterbody_flowline s d :
  dict_grows (waterbody_flowline_of s) d → frame s (set_waterbody_flowline d s).
Proof.
  intros Hd. split; [|split; [repeat split|split; [by split|]]].
  2:{ split; [done|]. split; [done|]. cbn. pose proof (dom_waterbody_flowline_loaded s).
      destruct Hd. set_solver. }
  unfold same_network. split; [done|]. split; [done|]. split; [done|].
  split; [of_eq; apply dict_grows_refl|].
  split; [of_eq; apply dict_grows_refl|].
  split; [by apply waterbody_flowline_of_grown|]. by of_eq.
Qed.

Lemma frame_set_flowline_waterbody s :
  frame s (set_flowline_waterbody (flowline_waterbody_of s) s).
Proof.
  split; [|split; [repeat split|split; [by split|by repeat split]]].
  unfold same_network. split; [done|]. split; [done|]. split; [done|].
  split; [of_eq; apply dict_grows_refl|].
  split; [of_eq; apply dict_grows_refl|].
  split; [of_eq; apply dict_grows_refl|].
  by apply flowline_waterbody_of_loaded.
Qed.

Lemma frame_ensure_upstream s : frame s (ensure_upstream s).
Proof.
  unfold ensure_upstream. destruct (dict_empty (upstream s)) eqn:E; [|apply frame_refl].
  apply frame_set_upstream. rewrite upstream_of_eq, E. apply dict_grows_refl.
Qed.

Lemma frame_ensure_downstream s : frame s (ensure_downstream s).
Proof.
  unfold ensure_downstream. destruct (dict_empty (downstream s)) eqn:E; [|apply frame_refl].
  apply frame_set_downstream. rewrite downstream_of_eq, E. apply dict_grows_refl.
Qed.

Lemma frame_ensure_waterbody_flowline s : frame s (ensure_waterbody_flowline s).
Proof.
  unfold ensure_waterbody_flowline.
  destruct (dict_empty (waterbody_flowline s)) eqn:E; [|apply frame_refl].
  apply frame_set_waterbody_flowline. rewrite waterbody_flowline_of_eq, E.
  apply dict_empty_true in E. rewrite E. apply dict_grows_refl.
Qed.

Lemma ensure_upstream_loaded s : upstream (ensure_upstream s) = upstream_of s.
Proof. by rewrite upstream_of_ensure. Qed.

Lemma upstream_of_loaded s s' :
  frame s s' → dict_grows (upstream_of s) (upstream s') →
  dict_grows (upstream_of s') (upstream s').
Proof.
  intros Hf Hg. rewrite (upstream_of_eq s').
  destruct (dict_empty (upstream s')) eqn:E; [|apply dict_grows_refl].
  apply dict_empty_true in E. rewrite E in *.
  destruct Hf as ((Hgdb & Hi & _) & _). rewrite Hgdb, Hi.
  destruct Hg as [_ Hdom]. rewrite dom_empty_L in Hdom.
  assert (upstream_of s = ∅) as Hu by (apply dom_empty_iff_L; set_solver).
  rewrite upstream_of_eq in Hu. destruct (dict_empty (upstream s)) eqn:E2.
  - rewrite Hu. apply dict_grows_refl.
  - apply dict_empty_true in Hu. congruence.
Qed.

Lemma upstream_of_ensure_upstream s : upstream_of (ensure_upstream s) = upstream_of s.
Proof.
  rewrite (upstream_of_eq (ensure_upstream s)), (upstream_of_eq s).
  unfold ensure_upstream. destruct (dict_empty (upstream s)) eqn:E; cbn.
  - by destruct (dict_empty (foldl _ _ _)).
  - by rewrite E.
Qed.

Lemma downstream_of_ensure_downstream s :
  downstream_of (ensure_downstream s) = downstream_of s.
Proof.
  rewrite (downstream_of_eq (ensure_downstream s)), (downstream_of_eq s).
  unfold ensure_downstream. destruct (dict_empty (downstream s)) eqn:E; cbn.
  - by destruct (dict_empty (foldl _ _ _)).
  - by rewrite E.
Qed.

Lemma waterbody_flowline_of_ensure_waterbody_flowline s :
  waterbody_flowline_of (ensure_waterbody_flowline s) = waterbody_flowline_of s.
Proof.
  rewrite (waterbody_flowline_of_eq (ensure_waterbody_flowline s)),
    (waterbody_flowline_of_eq s).
  unfold ensure_waterbody_flowline.
  destruct (dict_empty (waterbody_flowline s)) eqn:E; cbn.
  - apply dict_empty_true in E. rewrite E. by destruct (dict_empty (foldl _ _ _)).
  - by rewrite E.
Qed.

Lemma elem_of_omap_lookup (fw : gmap string string) (l : list string) y :
  y ∈ omap (λ id, fw !! id) l ↔ ∃ f, f ∈ l ∧ fw !! f = Some y.
Proof. apply list_elem_of_omap. Qed.

Lemma add_wb_permids_run b all s :
  ∃ R s', add_wb_permids b all s = Ok R s' ∧ frame s s' ∧ R = pylist (pyset R) ∧
    ∀ y, y ∈ R ↔
         y ∈ all ∨
         (b = true ∧ ∃ f, f ∈ all ∧ flowline_waterbody_of s !! f = Some y
                          ∧ y ∉ waterbody_stop_ids s).
Proof.
  destruct b.
  - unfold add_wb_permids. msimpl.
    assert (∃ s1, (if dict_empty (flowline_waterbody s)
                   then map_flowlines_to_waterbodies;; mret () else mret ()) s = Ok () s1
                  ∧ frame s s1 ∧ flowline_waterbody s1 = flowline_waterbody_of s
                  ∧ waterbody_stop_ids s1 = waterbody_stop_ids s) as (s1 & Hrun & Hf & Hfw & Hw).
    { pose proof (flowline_waterbody_of_eq s) as Heq.
      destruct (dict_empty (flowline_waterbody s)) eqn:E.
      - unfold map_flowlines_to_waterbodies. msimpl. eexists. split; [done|].
        rewrite <- Heq. split; [apply frame_set_flowline_waterbody|done].
      - msimpl. eexists. split; [done|]. split; [apply frame_refl|done]. }
    rewrite (bind_Ok _ _ _ _ _ Hrun). msimpl. eexists _, _. split; [done|].
    split; [done|]. split; [by rewrite !pyset_pylist|].
    intros y. rewrite Hfw, Hw.
    rewrite elem_of_pylist, elem_of_pyset, elem_of_app, !elem_of_pylist,
      elem_of_difference, !elem_of_pyset, elem_of_omap_lookup.
    split.
    + intros [Hy|[(f & Hf1 & Hf2) Hn]]; [by left|]. right. split; [done|].
      exists f. by rewrite elem_of_pylist, elem_of_pyset in Hf1.
    + intros [Hy|(_ & f & Hf1 & Hf2 & Hn)]; [by left|]. right. split; [|done].
      exists f. by rewrite elem_of_pylist, elem_of_pyset.
  - rewrite add_wb_permids_false. eexists _, _. split; [done|].
    split; [apply frame_refl|]. split; [by rewrite !pyset_pylist|].
    intros y. rewrite elem_of_pylist, elem_of_pyset, elem_of_pylist, elem_of_pyset.
    split; [by left|]. by intros [?|[? _]].
Qed.

Lemma trace_up_from_a_flowline_run x b s :
  ∃ R s', trace_up_from_a_flowline x b s = Ok R s' ∧ frame s s' ∧
    R = pylist (pyset R) ∧
    ∀ y, y ∈ R ↔ in_trace (adj (upstream_of s)) (flowline_waterbody_of s)
                   (flowline_stop_ids s) (waterbody_stop_ids s) b x y.
Proof.
  rewrite trace_up_from_a_flowline_unfold.
  destruct (trace_flowlines_spec (flowline_stop_ids s) (upstream_of s) x)
    as (all & d & -> & Hadj & Hdom & Hall).
  assert (Hf1 : frame s (set_upstream d (ensure_upstream s))).
  { eapply frame_trans; [apply frame_ensure_upstream|]. apply frame_set_upstream.
    rewrite upstream_of_ensure_upstream. split; [done|set_solver]. }
  destruct (add_wb_permids_run b all (set_upstream d (ensure_upstream s)))
    as (R & s' & -> & Hf2 & Hc & HR).
  exists R, s'. split; [done|]. split; [eapply frame_trans; eauto|]. split; [done|].
  intros y. rewrite HR. unfold in_trace.
  destruct Hf1 as ((_ & _ & _ & _ & _ & _ & Hfw) & _ & (_ & Hws) & _).
  rewrite Hfw, Hws, Hall. split.
  - intros [?|(? & f & Hf & ?)]; [by left|]. right. split; [done|].
    exists f. by rewrite <- Hall.
  - intros [?|(? & f & Hf & ?)]; [by left|]. right. split; [done|].
    exists f. by rewrite Hall.
Qed.

Lemma trace_down_from_a_flowline_run x b s :
  ∃ R s', trace_down_from_a_flowline x b s = Ok R s' ∧ frame s s' ∧
    R = pylist (pyset R) ∧
    ∀ y, y ∈ R ↔ in_trace (adj (downstream_of s)) (flowline_waterbody_of s)
                   (flowline_stop_ids s) (waterbody_stop_ids s) b x y.
Proof.
  rewrite trace_down_from_a_flowline_unfold.
  destruct (trace_flowlines_spec (flowline_stop_ids s) (downstream_of s) x)
    as (all & d & -> & Hadj & Hdom & Hall).
  assert (Hf1 : frame s (set_downstream d (ensure_downstream s))).
  { eapply frame_trans; [apply frame_ensure_downstream|]. apply frame_set_downstream.
    rewrite downstream_of_ensure_downstream. split; [done|set_solver]. }
  destruct (add_wb_permids_run b all (set_downstream d (ensure_downstream s)))
    as (R & s' & -> & Hf2 & Hc & HR).
  exists R, s'. split; [done|]. split; [eapply frame_trans; eauto|]. split; [done|].
  intros y. rewrite HR. unfold in_trace.
  destruct Hf1 as ((_ & _ & _ & _ & _ & _ & Hfw) & _ & (_ & Hws) & _).
  rewrite Hfw, Hws, Hall. split.
  - intros [?|(? & f & Hf & ?)]; [by left|]. right. split; [done|].
    exists f. by rewrite <- Hall.
  - intros [?|(? & f & Hf & ?)]; [by left|]. right. split; [done|].
    exists f. by rewrite Hall.
Qed.

Lemma in_trace_ext a a' fw fstops wstops b x y :
  (∀ k, a k = a' k) →
  in_trace a fw fstops wstops b x y ↔ in_trace a' fw fstops wstops b x y.
Proof.
  intros Ha. unfold in_trace. split.
  - intros [H|(Hb & f & Hf & H)]; [left; by eapply reach_ext|].
    right. split; [done|]. exists f. split; [by eapply reach_ext|done].
  - assert (Ha' : ∀ k, a' k = a k) by done.
    intros [H|(Hb & f & Hf & H)]; [left; by eapply reach_ext|].
    right. split; [done|]. exists f. split; [by eapply reach_ext|done].
Qed.

Lemma in_trace_start a fw fstops wstops b x : in_trace a fw fstops wstops b x x.
Proof. left. apply reach_start. Qed.

Lemma for_each_inv {A B} (f : A → M B) (I : NHDNetwork → Prop) (Q : A → B → Prop) :
  (∀ x s, I s → ∃ y s', f x s = Ok y s' ∧ I s' ∧ Q x y) →
  ∀ l s, I s → ∃ ys s', for_each f l s = Ok ys s' ∧ I s' ∧ Forall2 Q l ys.
Proof.
  intros Hf l. induction l as [|x l IH]; intros s Hs; cbn [for_each].
  - msimpl. eexists _, _. split; [done|]. split; [done|]. constructor.
  - destruct (Hf x s Hs) as (y & s1 & Hy & Hs1 & HQ). rewrite (bind_Ok _ _ _ _ _ Hy).
    destruct (IH s1 Hs1) as (ys & s2 & Hys & Hs2 & HQs).
    rewrite (bind_Ok _ _ _ _ _ Hys). msimpl.
    eexists _, _. split; [done|]. split; [done|]. by constructor.
Qed.

Lemma ensure_waterbody_flowline_loaded s :
  waterbody_flowline (ensure_waterbody_flowline s) = waterbody_flowline_of s.
Proof. by rewrite waterbody_flowline_of_ensure. Qed.

Lemma upstream_of_ensure_upstream_loaded s :
  upstream_of (ensure_upstream s) = upstream (ensure_upstream s).
Proof. by rewrite upstream_of_ensure_upstream, upstream_of_ensure. Qed.

Lemma downstream_of_ensure_downstream_loaded s :
  downstream_of (ensure_downstream s) = downstream (ensure_downstream s).
Proof. by rewrite downstream_of_ensure_downstream, downstream_of_ensure. Qed.

Lemma identify_lake_outlets_run w s :
  ∃ R s', identify_lake_outlets w s = Ok R s' ∧ frame s s' ∧ R = pylist (pyset R) ∧
    ∀ y, y ∈ R ↔ lake_ends (adj (upstream_of s)) (adj (waterbody_flowline_of s) w) y.
Proof.
  pose proof (identify_lake_outlets_unfold w s) as H. cbv zeta in H.
  eexists _, _. split; [exact H|]. clear H.
  set (s1 := ensure_waterbody_flowline (ensure_upstream s)).
  assert (Hf1 : frame s s1).
  { eapply frame_trans; [apply frame_ensure_upstream|apply frame_ensure_waterbody_flowline]. }
  assert (Hup : upstream s1 = upstream_of s).
  { unfold s1. by rewrite ensure_waterbody_flowline_upstream, ensure_upstream_loaded. }
  assert (Hwf : waterbody_flowline s1 = waterbody_flowline_of s).
  { unfold s1.
    by rewrite ensure_waterbody_flowline_ensure_upstream, ensure_waterbody_flowline_loaded. }
  assert (Hup1 : upstream_of s1 = upstream s1).
  { unfold s1. rewrite upstream_of_eq, ensure_waterbody_flowline_upstream.
    assert (Hg : gdb (ensure_waterbody_flowline (ensure_upstream s)) = gdb (ensure_upstream s)).
    { unfold ensure_waterbody_flowline. by destruct (dict_empty _). }
    assert (Hi : intermit_flowline_ids (ensure_waterbody_flowline (ensure_upstream s))
                 = intermit_flowline_ids (ensure_upstream s)).
    { unfold ensure_waterbody_flowline. by destruct (dict_empty _). }
    rewrite Hg, Hi, <- upstream_of_eq. apply upstream_of_ensure_upstream_loaded. }
  assert (Hwf1 : waterbody_flowline_of s1 = waterbody_flowline s1).
  { unfold s1. rewrite waterbody_flowline_of_ensure_waterbody_flowline.
    by rewrite waterbody_flowline_of_ensure. }
  split; [|split].
  - eapply frame_trans; [exact Hf1|].
    eapply frame_trans.
    + apply (frame_set_waterbody_flowline s1). rewrite Hwf1. apply dd_getitem_grows.
    + apply frame_set_upstream. rewrite upstream_of_eq. cbn.
      rewrite <- upstream_of_eq, Hup1. apply dd_getitems_grows.
  - by rewrite !pyset_pylist.
  - intros y. rewrite Hup, Hwf. unfold lake_ends.
    rewrite elem_of_pylist, elem_of_difference, !elem_of_pyset, elem_of_concat. split.
    + intros [Hy Hn]. split; [done|]. intros g Hg Hgy. apply Hn.
      exists (adj (upstream_of s) g). split; [done|].
      apply list_elem_of_fmap. exists g. split; [done|].
      by apply elem_of_pylist, elem_of_pyset.
    + intros [Hy Hn]. split; [done|]. intros (l & Hyl & Hl).
      apply list_elem_of_fmap in Hl as (g & -> & Hg).
      apply elem_of_pylist, elem_of_pyset in Hg. by apply (Hn g).
Qed.

Lemma ensure_waterbody_flowline_downstream self :
  downstream (ensure_waterbody_flowline self) = downstream self.
Proof. unfold ensure_waterbody_flowline. by destruct (dict_empty _). Qed.

Lemma ensure_downstream_waterbody_flowline self :
  waterbody_flowline (ensure_downstream self) = waterbody_flowline self.
Proof. unfold ensure_downstream. by destruct (dict_empty _). Qed.

Lemma ensure_downstream_gdb self : gdb (ensure_downstream self) = gdb self.
Proof. unfold ensure_downstream. by destruct (dict_empty _). Qed.

Lemma ensure_waterbody_flowline_ensure_downstream self :
  waterbody_flowline (ensure_waterbody_flowline (ensure_downstream self))
  = waterbody_flowline (ensure_waterbody_flowline self).
Proof.
  unfold ensure_waterbody_flowline.
  rewrite ensure_downstream_waterbody_flowline, ensure_downstream_gdb.
  destruct (dict_empty (waterbody_flowline self)); [done|].
  apply ensure_downstream_waterbody_flowline.
Qed.

Lemma identify_lake_inlets_unfold w self :
  let s1 := ensure_waterbody_flowline (ensure_downstream self) in
  let own := pyset (adj (waterbody_flowline s1) w) in
  identify_lake_inlets w self =
  Ok (pylist (own ∖ pyset (concat (adj (downstream s1) <$> pylist own))))
     (set_downstream (dd_getitems (downstream s1) (pylist own)).2
        (set_waterbody_flowline (dd_getitem (waterbody_flowline s1) w).2 s1)).
Proof.
  cbv zeta. unfold identify_lake_inlets. msimpl.
  rewrite (bind_Ok _ _ _ _ _ (ensure_downstream_run self)). msimpl.
  rewrite (bind_Ok _ _ _ _ _ (ensure_waterbody_flowline_run _)). msimpl.
  set (s1 := ensure_waterbody_flowline (ensure_downstream self)).
  pose proof (dd_getitem_fst (waterbody_flowline s1) w) as Hown.
  destruct (dd_getitem (waterbody_flowline s1) w) as [own wf] eqn:E1.
  cbn [fst snd] in *. subst own. msimpl.
  pose proof (dd_getitems_fst (pylist (pyset (adj (waterbody_flowline s1) w)))
                (downstream s1)) as Hnext.
  destruct (dd_getitems (downstream s1) _) as [next_down down] eqn:E2.
  cbn [fst snd] in *. subst next_down. by msimpl.
Qed.

Lemma identify_lake_inlets_run w s :
  ∃ R s', identify_lake_inlets w s = Ok R s' ∧ frame s s' ∧ R = pylist (pyset R) ∧
    ∀ y, y ∈ R ↔ lake_ends (adj (downstream_of s)) (adj (waterbody_flowline_of s) w) y.
Proof.
  pose proof (identify_lake_inlets_unfold w s) as H. cbv zeta in H.
  eexists _, _. split; [exact H|]. clear H.
  set (s1 := ensure_waterbody_flowline (ensure_downstream s)).
  assert (Hf1 : frame s s1).
  { eapply frame_trans; [apply frame_ensure_downstream|apply frame_ensure_waterbody_flowline]. }
  assert (Hup : downstream s1 = downstream_of s).
  { unfold s1. by rewrite ensure_waterbody_flowline_downstream, <- downstream_of_ensure. }
  assert (Hwf : waterbody_flowline s1 = waterbody_flowline_of s).
  { unfold s1.
    by rewrite ensure_waterbody_flowline_ensure_downstream, ensure_waterbody_flowline_loaded. }
  assert (Hup1 : downstream_of s1 = downstream s1).
  { unfold s1. rewrite downstream_of_eq, ensure_waterbody_flowline_downstream.
    assert (Hg : gdb (ensure_waterbody_flowline (ensure_downstream s))
                 = gdb (ensure_downstream s)).
    { unfold ensure_waterbody_flowline. by destruct (dict_empty _). }
    assert (Hi : intermit_flowline_ids (ensure_waterbody_flowline (ensure_downstream s))
                 = intermit_flowline_ids (ensure_downstream s)).
    { unfold ensure_waterbody_flowline. by destruct (dict_empty _). }
    rewrite Hg, Hi, <- downstream_of_eq. apply downstream_of_ensure_downstream_loaded. }
  assert (Hwf1 : waterbody_flowline_of s1 = waterbody_flowline s1).
  { unfold s1. rewrite waterbody_flowline_of_ensure_waterbody_flowline.
    by rewrite waterbody_flowline_of_ensure. }
  split; [|split].
  - eapply frame_trans; [exact Hf1|].
    eapply frame_trans.
    + apply (frame_set_waterbody_flowline s1). rewrite Hwf1. apply dd_getitem_grows.
    + apply frame_set_downstream. rewrite downstream_of_eq. cbn.
      rewrite <- downstream_of_eq, Hup1. apply dd_getitems_grows.
  - by rewrite !pyset_pylist.
  - intros y. rewrite Hup, Hwf. unfold lake_ends.
    rewrite elem_of_pylist, elem_of_difference, !elem_of_pyset, elem_of_concat. split.
    + intros [Hy Hn]. split; [done|]. intros g Hg Hgy. apply Hn.
      exists (adj (downstream_of s) g). split; [done|].
      apply list_elem_of_fmap. exists g. split; [done|].
      by apply elem_of_pylist, elem_of_pyset.
    + intros [Hy Hn]. split; [done|]. intros (l & Hyl & Hl).
      apply list_elem_of_fmap in Hl as (g & -> & Hg).
      apply elem_of_pylist, elem_of_pyset in Hg. by apply (Hn g).
Qed.

(** ** Waterbody traces *)

Lemma trace_up_from_a_waterbody_tail w :
  trace_up_from_a_waterbody w =
  (self ← get;
   (if dict_empty (upstream self) then prepare_upstream false;; mret () else mret ());;
   waterbody_trace_tail identify_lake_outlets trace_up_from_a_flowline w).
Proof. reflexivity. Qed.

Lemma trace_down_from_a_waterbody_tail w :
  trace_down_from_a_waterbody w =
  (self ← get;
   (if dict_empty (downstream self) then prepare_downstream false;; mret () else mret ());;
   waterbody_trace_tail identify_lake_inlets trace_down_from_a_flowline w).
Proof. reflexivity. Qed.

Lemma set_flowline_stop_ids_frame v s :
  same_network s (set_flowline_stop_ids v s) ∧ same_config s (set_flowline_stop_ids v s)
  ∧ raw_grows s (set_flowline_stop_ids v s).
Proof.
  split; [|split; [repeat split|by repeat split]].
  unfold same_network. split; [done|]. split; [done|]. split; [done|].
  split; [of_eq; apply dict_grows_refl|].
  split; [of_eq; apply dict_grows_refl|].
  split; [of_eq; apply dict_grows_refl|]. by of_eq.
Qed.

Lemma set_waterbody_stop_ids_frame v s :
  same_network s (set_waterbody_stop_ids v s) ∧ same_config s (set_waterbody_stop_ids v s)
  ∧ raw_grows s (set_waterbody_stop_ids v s).
Proof.
  split; [|split; [repeat split|by repeat split]].
  unfold same_network. split; [done|]. split; [done|]. split; [done|].
  split; [of_eq; apply dict_grows_refl|].
  split; [of_eq; apply dict_grows_refl|].
  split; [of_eq; apply dict_grows_refl|]. by of_eq.
Qed.

Lemma Forall2_elem_of_l {A B} (P : A → B → Prop) l k x :
  Forall2 P l k → x ∈ l → ∃ y, y ∈ k ∧ P x y.
Proof.
  induction 1 as [|x' y' l k HP HF IH]; [by intros ?%elem_of_nil|].
  intros [->|Hx]%elem_of_cons.
  - exists y'. split; [apply list_elem_of_here|done].
  - destruct (IH Hx) as (y & Hy & HPy). exists y. split; [|done].
    by apply list_elem_of_further.
Qed.

Lemma Forall2_elem_of_r {A B} (P : A → B → Prop) l k y :
  Forall2 P l k → y ∈ k → ∃ x, x ∈ l ∧ P x y.
Proof.
  induction 1 as [|x' y' l k HP HF IH]; [by intros ?%elem_of_nil|].
  intros [->|Hy]%elem_of_cons.
  - exists x'. split; [apply list_elem_of_here|done].
  - destruct (IH Hy) as (x & Hx & HPx). exists x. split; [|done].
    by apply list_elem_of_further.
Qed.

Section WaterbodyTrace.
Context (ends : string → M (list string)) (trace : string → bool → M (list string)).
Context (aof : NHDNetwork → gmap string (list string)).
Context (Hends : ∀ w s, ∃ R s', ends w s = Ok R s' ∧ frame s s' ∧ R = pylist (pyset R) ∧
   ∀ y, y ∈ R ↔ lake_ends (adj (aof s)) (adj (waterbody_flowline_of s) w) y).
Context (Htrace : ∀ x b s, ∃ R s', trace x b s = Ok R s' ∧ frame s s' ∧
   R = pylist (pyset R) ∧
   ∀ y, y ∈ R ↔ in_trace (adj (aof s)) (flowline_waterbody_of s)
                  (flowline_stop_ids s) (waterbody_stop_ids s) b x y).
Context (Haof : ∀ s s', same_network s s' → dict_grows (aof s) (aof s')).

Lemma waterbody_trace_tail_run w s :
  ∃ R s', waterbody_trace_tail ends trace w s = Ok R s' ∧ frame s s' ∧
    w ∈ dom (waterbody_flowline s') ∧
    R = pylist (pyset R) ∧
    ∀ y, y ∈ R ↔ in_waterbody_trace (adj (aof s)) (flowline_waterbody_of s)
                   (adj (waterbody_flowline_of s))
                   (flowline_stop_ids s) (waterbody_stop_ids s) w y.
Proof.
  unfold waterbody_trace_tail. msimpl.
  rewrite (bind_Ok _ _ _ _ _ (ensure_waterbody_flowline_run s)). msimpl.
  set (s2 := ensure_waterbody_flowline s).
  assert (Hf2 : frame s s2) by apply frame_ensure_waterbody_flowline.
  assert (Hwf2 : waterbody_flowline s2 = waterbody_flowline_of s)
    by apply ensure_waterbody_flowline_loaded.
  pose proof (dd_getitem_fst (waterbody_flowline s2) w) as Hown.
  pose proof (dd_getitem_grows (waterbody_flowline s2) w) as Hgrow.
  pose proof (dd_getitem_dom (waterbody_flowline s2) w) as Hdomw.
  destruct (dd_getitem (waterbody_flowline s2) w) as [own wf] eqn:E1.
  cbn [fst snd] in *. subst own. rewrite Hwf2 in *. msimpl.
  set (own := adj (waterbody_flowline_of s) w).
  set (s3 := set_waterbody_flowline wf s2).
  assert (Hf3 : frame s s3).
  { eapply frame_trans; [exact Hf2|]. apply frame_set_waterbody_flowline.
    unfold s2. by rewrite waterbody_flowline_of_ensure_waterbody_flowline. }
  assert (Hfs : flowline_stop_ids s3 = flowline_stop_ids s) by apply Hf3.
  assert (Hws : waterbody_stop_ids s3 = waterbody_stop_ids s) by apply Hf3.
  set (fstops' := filter (λ id, id ∉ pyset own) (flowline_stop_ids s)).
  set (wstops' := if list_empty (flowline_stop_ids s) then waterbody_stop_ids s
                  else filter (λ id, str_in id w = false) (waterbody_stop_ids s)).
  (* the barriers while the lake is traced *)
  assert (∃ s4, when (negb (list_empty (flowline_stop_ids s3)))
                  (modify (set_flowline_stop_ids
                     (filter (λ id, id ∉ pyset own) (flowline_stop_ids s3)));;
                   modify (set_waterbody_stop_ids
                     (filter (λ id, str_in id w = false) (waterbody_stop_ids s3)))) s3
                = Ok () s4 ∧
                same_network s s4 ∧ same_config s s4 ∧ raw_grows s s4 ∧
                w ∈ dom (waterbody_flowline s4) ∧
                flowline_stop_ids s4 = fstops' ∧ waterbody_stop_ids s4 = wstops')
    as (s4 & Hrun4 & Hn4 & Hc4 & Hr4 & Hw4 & Hfs4 & Hws4).
  { unfold fstops', wstops'. rewrite Hfs, Hws.
    destruct (flowline_stop_ids s) as [|f0 fl] eqn:Efs; cbn [list_empty negb when].
    - msimpl. exists s3. split; [done|]. split; [apply Hf3|]. split; [apply Hf3|].
      split; [apply Hf3|]. split; [cbn; rewrite Hdomw; set_solver|].
      by rewrite Hfs, Hws.
    - msimpl. eexists. split; [done|].
      destruct (set_flowline_stop_ids_frame
                  (filter (λ id, id ∉ pyset own) (f0 :: fl)) s3) as (A1 & A2 & A3).
      destruct (set_waterbody_stop_ids_frame
                  (filter (λ id, str_in id w = false) (waterbody_stop_ids s))
                  (set_flowline_stop_ids (filter (λ id, id ∉ pyset own) (f0 :: fl)) s3))
        as (B1 & B2 & B3).
      split; [|split; [|split; [|split; [|done]]]].
      + eapply same_network_trans; [apply Hf3|]. eapply same_network_trans; eauto.
      + eapply same_config_trans; [apply Hf3|]. eapply same_config_trans; eauto.
      + eapply raw_grows_trans; [apply Hf3|]. eapply raw_grows_trans; eauto.
      + cbn. rewrite Hdomw. set_solver. }
  rewrite (bind_Ok _ _ _ _ _ Hrun4).
  (* the lake's ends *)
  destruct (Hends w s4) as (lowest & s5 & Hrun5 & Hf5 & Hc5 & Hlow).
  rewrite (bind_Ok _ _ _ _ _ Hrun5).
  assert (Ha : ∀ s', same_network s s' → ∀ k, adj (aof s') k = adj (aof s) k).
  { intros s' Hs'. by destruct (Haof s s' Hs'). }
  assert (Hw : ∀ s', same_network s s' →
               ∀ k, adj (waterbody_flowline_of s') k = adj (waterbody_flowline_of s) k).
  { intros s' (_ & _ & _ & _ & _ & [H _] & _). done. }
  assert (Hn5 : same_network s s5).
  { eapply same_network_trans; [exact Hn4|apply Hf5]. }
  (* the traces from each end *)
  destruct (for_each_inv (λ id, trace id true) (λ st, frame s5 st)
              (λ o R, ∀ y, y ∈ R ↔ in_trace (adj (aof s)) (flowline_waterbody_of s)
                                     fstops' wstops' true o y))
    with (l := pylist (pyset lowest)) (s := s5)
    as (unflat & s6 & Hrun6 & Hf6 & HQ).
  { intros o st Hst. destruct (Htrace o true st) as (R & st' & HR & Hfr & _ & Hin).
    exists R, st'. split; [done|]. split; [eapply frame_trans; eauto|].
    intros y. rewrite Hin.
    assert (Hnst : same_network s st) by (eapply same_network_trans; [exact Hn5|apply Hst]).
    destruct Hst as (_ & _ & (Hst1 & Hst2) & _).
    destruct Hf5 as (_ & _ & (Hf51 & Hf52) & _).
    rewrite Hst1, Hst2, Hf51, Hf52, Hfs4, Hws4.
    pose proof Hnst as (_ & _ & _ & _ & _ & _ & Hfw).
    rewrite Hfw. apply in_trace_ext. intros k. by apply Ha. }
  { apply frame_refl. }
  rewrite (bind_Ok _ _ _ _ _ Hrun6).
  (* the barriers restored *)
  assert (∃ s7, when (negb (list_empty (flowline_stop_ids s3)))
                  (modify (set_flowline_stop_ids (flowline_stop_ids s3));;
                   modify (set_waterbody_stop_ids (waterbody_stop_ids s3))) s6
                = Ok () s7 ∧ frame s s7 ∧ w ∈ dom (waterbody_flowline s7))
    as (s7 & Hrun7 & Hf7 & Hw7).
  { assert (Hn6 : same_network s s6).
    { eapply same_network_trans; [exact Hn5|apply Hf6]. }
    assert (Hc6 : same_config s s6).
    { eapply same_config_trans; [exact Hc4|].
      eapply same_config_trans; [apply Hf5|apply Hf6]. }
    assert (Hr6 : raw_grows s s6).
    { eapply raw_grows_trans; [exact Hr4|].
      eapply raw_grows_trans; [apply Hf5|apply Hf6]. }
    assert (Hw6 : w ∈ dom (waterbody_flowline s6)).
    { destruct Hf5 as (_ & _ & _ & (_ & _ & A)). destruct Hf6 as (_ & _ & _ & (_ & _ & B)).
      set_solver. }
    rewrite Hfs, Hws.
    destruct (flowline_stop_ids s) as [|f0 fl] eqn:Efs; cbn [list_empty negb when].
    - msimpl. exists s6. split; [done|]. split; [|done]. split; [done|]. split; [done|].
      split; [|done].
      destruct Hf6 as (_ & _ & (A1 & A2) & _). destruct Hf5 as (_ & _ & (B1 & B2) & _).
      split; [by rewrite A1, B1, Hfs4|]. by rewrite A2, B2, Hws4.
    - msimpl. eexists. split; [done|].
      destruct (set_flowline_stop_ids_frame (f0 :: fl) s6) as (A1 & A2 & A3).
      destruct (set_waterbody_stop_ids_frame (waterbody_stop_ids s)
                  (set_flowline_stop_ids (f0 :: fl) s6)) as (B1 & B2 & B3).
      split; [|done]. split; [|split; [|split]].
      + eapply same_network_trans; [exact Hn6|]. eapply same_network_trans; eauto.
      + eapply same_config_trans; [exact Hc6|]. eapply same_config_trans; eauto.
      + by split.
      + eapply raw_grows_trans; [exact Hr6|]. eapply raw_grows_trans; eauto. }
  rewrite (bind_Ok _ _ _ _ _ Hrun7). msimpl.
  eexists _, _. split; [done|]. split; [done|]. split; [done|].
  split; [by rewrite !pyset_pylist|].
  intros y. unfold in_waterbody_trace. fold own fstops' wstops'.
  rewrite elem_of_pylist, elem_of_pyset, elem_of_concat. split.
  - intros (R & Hy & HR).
    apply (Forall2_elem_of_r _ _ _ _ HQ) in HR as (o & Ho & HoR).
    exists o. split; [|by apply HoR].
    apply elem_of_pylist, elem_of_pyset, Hlow in Ho.
    destruct Ho as [Ho1 Ho2]. rewrite Hw in Ho1 by done. split; [done|].
    intros g Hg. rewrite <- (Ha s4 Hn4). apply Ho2. by rewrite Hw.
  - intros (o & [Ho1 Ho2] & Hy).
    assert (Ho : o ∈ pylist (pyset lowest)).
    { apply elem_of_pylist, elem_of_pyset, Hlow. split; [by rewrite Hw|].
      intros g Hg. rewrite (Ha s4 Hn4). apply Ho2. by rewrite Hw in Hg. }
    apply (Forall2_elem_of_l _ _ _ _ HQ) in Ho as (R & HR & HoR).
    exists R. split; [by apply HoR|done].
Qed.
End WaterbodyTrace.

Lemma in_waterbody_trace_ext a a' fw wf wf' fstops wstops w y :
  (∀ k, a k = a' k) → wf w = wf' w →
  in_waterbody_trace a fw wf fstops wstops w y
  ↔ in_waterbody_trace a' fw wf' fstops wstops w y.
Proof.
  intros Ha Hwf. unfold in_waterbody_trace, lake_ends. rewrite Hwf.
  split; intros (o & [Ho1 Ho2] & Hy); exists o.
  - split; [split; [done|]|].
    + intros g Hg. rewrite <- Ha. by apply Ho2.
    + by apply (in_trace_ext a a').
  - split; [split; [done|]|].
    + intros g Hg. rewrite Ha. by apply Ho2.
    + by apply (in_trace_ext a a').
Qed.

Lemma trace_up_from_a_waterbody_run w s :
  ∃ R s', trace_up_from_a_waterbody w s = Ok R s' ∧ frame s s' ∧
    w ∈ dom (waterbody_flowline s') ∧
    R = pylist (pyset R) ∧
    ∀ y, y ∈ R ↔ in_waterbody_trace (adj (upstream_of s)) (flowline_waterbody_of s)
                   (adj (waterbody_flowline_of s))
                   (flowline_stop_ids s) (waterbody_stop_ids s) w y.
Proof.
  rewrite trace_up_from_a_waterbody_tail. msimpl.
  rewrite (bind_Ok _ _ _ _ _ (ensure_upstream_run s)).
  destruct (waterbody_trace_tail_run identify_lake_outlets trace_up_from_a_flowline
              upstream_of identify_lake_outlets_run trace_up_from_a_flowline_run
              (λ s s' H, proj1 (proj2 (proj2 (proj2 H)))) w (ensure_upstream s))
    as (R & s' & HR & Hf & Hdw & Hc & Hin).
  pose proof (frame_ensure_upstream s) as Hf0.
  exists R, s'. split; [done|]. split; [eapply frame_trans; eauto|]. split; [done|].
  split; [done|]. intros y. rewrite Hin.
  destruct Hf0 as ((_ & _ & _ & [Hu _] & _ & [Hw _] & Hfw) & _ & (Hs1 & Hs2) & _).
  rewrite Hfw, Hs1, Hs2. by apply in_waterbody_trace_ext.
Qed.

Lemma trace_down_from_a_waterbody_run w s :
  ∃ R s', trace_down_from_a_waterbody w s = Ok R s' ∧ frame s s' ∧
    w ∈ dom (waterbody_flowline s') ∧
    R = pylist (pyset R) ∧
    ∀ y, y ∈ R ↔ in_waterbody_trace (adj (downstream_of s)) (flowline_waterbody_of s)
                   (adj (waterbody_flowline_of s))
                   (flowline_stop_ids s) (waterbody_stop_ids s) w y.
Proof.
  rewrite trace_down_from_a_waterbody_tail. msimpl.
  rewrite (bind_Ok _ _ _ _ _ (ensure_downstream_run s)).
  destruct (waterbody_trace_tail_run identify_lake_inlets trace_down_from_a_flowline
              downstream_of identify_lake_inlets_run trace_down_from_a_flowline_run
              (λ s s' H, proj1 (proj2 (proj2 (proj2 (proj2 H))))) w (ensure_downstream s))
    as (R & s' & HR & Hf & Hdw & Hc & Hin).
  pose proof (frame_ensure_downstream s) as Hf0.
  exists R, s'. split; [done|]. split; [eapply frame_trans; eauto|]. split; [done|].
  split; [done|]. intros y. rewrite Hin.
  destruct Hf0 as ((_ & _ & _ & _ & [Hu _] & [Hw _] & Hfw) & _ & (Hs1 & Hs2) & _).
  rewrite Hfw, Hs1, Hs2. by apply in_waterbody_trace_ext.
Qed.

(** ** Set-up methods *)

Lemma same_network_fields s s' :
  gdb s' = gdb s →
  intermit_flowline_ids s' = intermit_flowline_ids s →
  exclude_intermittent_flow s' = exclude_intermittent_flow s →
  upstream s' = upstream s →
  downstream s' = downstream s →
  waterbody_flowline s' = waterbody_flowline s →
  flowline_waterbody s' = flowline_waterbody s →
  same_network s s' ∧ raw_grows s s'.
Proof.
  intros Hg Hi He Hu Hd Hw Hf. split.
  - unfold same_network. rewrite !upstream_of_eq, !downstream_of_eq,
      !waterbody_flowline_of_eq, !flowline_waterbody_of_eq, Hg, Hi, He, Hu, Hd, Hw, Hf.
    repeat split; done.
  - unfold raw_grows. by rewrite Hu, Hd, Hw.
Qed.

Lemma set_stop_ids_run ids s :
  let s1 := set_waterbody_stop_ids ids (ensure_waterbody_flowline s) in
  set_stop_ids ids s =
  Ok (concat (dd_getitems (waterbody_flowline s1) ids).1)
     (set_flowline_stop_ids (concat (dd_getitems (waterbody_flowline s1) ids).1)
        (set_waterbody_flowline (dd_getitems (waterbody_flowline s1) ids).2 s1)).
Proof.
  cbv zeta. unfold set_stop_ids. msimpl.
  rewrite (bind_Ok _ _ _ _ _ (ensure_waterbody_flowline_run s)). msimpl.
  destruct (dd_getitems _ ids) as [unflat d] eqn:E. by msimpl.
Qed.

Lemma set_start_ids_run ids s :
  let s1 := set_waterbody_start_ids ids (ensure_waterbody_flowline s) in
  set_start_ids ids s =
  Ok (concat (dd_getitems (waterbody_flowline s1) ids).1)
     (set_flowline_start_ids (concat (dd_getitems (waterbody_flowline s1) ids).1)
        (set_waterbody_flowline (dd_getitems (waterbody_flowline s1) ids).2 s1)).
Proof.
  cbv zeta. unfold set_start_ids. msimpl.
  rewrite (bind_Ok _ _ _ _ _ (ensure_waterbody_flowline_run s)). msimpl.
  destruct (dd_getitems _ ids) as [unflat d] eqn:E. by msimpl.
Qed.

Lemma define_lakes_run F strict force s :
  ∃ la, define_lakes F strict force s = Ok la (set_lakes_areas la s) ∧
        ∀ id, id ∈ dom la → id ∈ wb_Permanent_Identifier <$> NHDWaterbody (gdb s).
Proof.
  unfold define_lakes. msimpl. cbn [gdb set_lakes_areas].
  eexists. split; [reflexivity|].
  generalize (if force then match lagos_pop (gdb s) with
                            | Some rows => pyset rows | None => ∅ end else (∅ : gset string)).
  generalize (if strict then (1 # 100)%Q else (9 # 1000)%Q).
  intros minsize force_ids.
  induction (NHDWaterbody (gdb s)) as [|row rows IH] using rev_ind.
  - cbn. intros id. rewrite dom_empty_L. by intros ?%elem_of_empty.
  - rewrite foldl_snoc, fmap_app. intros id Hid. apply elem_of_app.
    destruct (_ || _).
    + rewrite dom_insert_L in Hid. apply elem_of_union in Hid as [Hid|Hid].
      * right. apply elem_of_singleton in Hid as ->. apply list_elem_of_here.
      * left. by apply IH.
    + left. by apply IH.
Qed.

Lemma lake_population_eq F s :
  lake_population F s =
  if dict_empty (lakes_areas s)
  then match define_lakes F false false s with Ok la _ => la | Raise _ => ∅ end
  else lakes_areas s.
Proof.
  unfold lake_population. destruct (dict_empty (lakes_areas s)); [|done].
  destruct (define_lakes_run F false false s) as (la & Hla & _).
  by rewrite (bind_Ok _ _ _ _ _ Hla), Hla.
Qed.

Lemma activate_10ha_lake_stops_run F s :
  ∃ ids s', activate_10ha_lake_stops F s = Ok ids s' ∧
    same_network s s' ∧ raw_grows s s' ∧
    tenha_waterbody_ids s' = ids ∧
    waterbody_stop_ids s' = ids ∧
    waterbody_start_ids s' = waterbody_start_ids s ∧
    lakes_areas s' = lake_population F s ∧
    (∀ id, id ∈ ids → id ∈ dom (lake_population F s)).
Proof.
  unfold activate_10ha_lake_stops. msimpl.
  set (s0 := set_waterbody_stop_ids [] s).
  assert (∃ s1, (if dict_empty (lakes_areas s0)
                 then define_lakes F false false;; mret () else mret ()) s0 = Ok () s1
                ∧ s1 = set_lakes_areas (lake_population F s) s0) as (s1 & Hrun1 & Hs1).
  { rewrite lake_population_eq. change (lakes_areas s0) with (lakes_areas s).
    destruct (dict_empty (lakes_areas s)) eqn:E.
    - destruct (define_lakes_run F false false s0) as (la & Hla & _).
      destruct (define_lakes_run F false false s) as (la' & Hla' & _).
      rewrite (bind_Ok _ _ _ _ _ Hla). msimpl. eexists. split; [done|].
      rewrite Hla'. f_equal.
      unfold define_lakes in Hla, Hla'. revert Hla Hla'. msimpl. cbn.
      intros [= <-] [= <-]. done.
    - msimpl. eexists. split; [done|]. by destruct s. }
  rewrite (bind_Ok _ _ _ _ _ Hrun1). msimpl.
  set (ids := (filter (λ kv, Qle_bool (1 # 10) kv.2 = true) (map_to_list (lakes_areas s1))).*1).
  pose proof (set_stop_ids_run ids (set_waterbody_stop_ids ids s1)) as Hrun2.
  cbv zeta in Hrun2. rewrite (bind_Ok _ _ _ _ _ Hrun2). msimpl.
  eexists _, _. split; [done|].
  assert (Hla : lakes_areas s1 = lake_population F s) by (by rewrite Hs1).
  assert (Hn : same_network s (ensure_waterbody_flowline (set_waterbody_stop_ids ids s1))
               ∧ raw_grows s (ensure_waterbody_flowline (set_waterbody_stop_ids ids s1))).
  { destruct (same_network_fields s (set_waterbody_stop_ids ids s1)) as [A1 A2];
      try (by rewrite Hs1).
    pose proof (frame_ensure_waterbody_flowline (set_waterbody_stop_ids ids s1))
      as (B1 & _ & _ & B2).
    split; [eapply same_network_trans; eauto|eapply raw_grows_trans; eauto]. }
  destruct Hn as [Hn Hr].
  set (s2 := ensure_waterbody_flowline (set_waterbody_stop_ids ids s1)) in *.
  set (s3 := set_waterbody_stop_ids ids s2).
  destruct (same_network_fields s2 s3) as [C1 C2]; try done.
  pose proof (frame_set_waterbody_flowline s3 (dd_getitems (waterbody_flowline s3) ids).2)
    as (D1 & _ & _ & D2).
  { replace (waterbody_flowline_of s3) with (waterbody_flowline s3).
    - apply dd_getitems_grows.
    - unfold s3, s2. rewrite waterbody_flowline_of_eq. cbn.
      rewrite <- waterbody_flowline_of_eq.
      rewrite waterbody_flowline_of_ensure_waterbody_flowline.
      by rewrite waterbody_flowline_of_ensure. }
  set (s4 := set_waterbody_flowline (dd_getitems (waterbody_flowline s3) ids).2 s3) in *.
  destruct (same_network_fields s4
              (set_tenha_waterbody_ids ids
                 (set_flowline_stop_ids (concat (dd_getitems (waterbody_flowline s3) ids).1) s4)))
    as [E1 E2]; try done.
  split.
  { eapply same_network_trans; [exact Hn|]. eapply same_network_trans; [exact C1|].
    eapply same_network_trans; [exact D1|exact E1]. }
  split.
  { eapply raw_grows_trans; [exact Hr|]. eapply raw_grows_trans; [exact C2|].
    eapply raw_grows_trans; [exact D2|exact E2]. }
  split; [done|]. split; [done|].
  pose proof (frame_ensure_waterbody_flowline (set_waterbody_stop_ids ids s1))
    as (_ & (G1 & _ & _ & G2 & _) & _).
  fold s2 in G1, G2.
  split; [cbn; rewrite G1; by rewrite Hs1|].
  split; [cbn; rewrite G2; by rewrite Hs1|].
  intros id Hid. unfold ids in Hid. rewrite Hla in Hid.
  apply list_elem_of_fmap in Hid as ([k v] & -> & Hkv).
  apply list_elem_of_filter in Hkv as [_ Hkv]. apply elem_of_map_to_list in Hkv.
  apply elem_of_dom. eauto.
Qed.

(** ** Connectivity classes *)

Lemma deactivate_stops_run s :
  deactivate_stops s = Ok () (set_flowline_stop_ids [] (set_waterbody_stop_ids [] s)).
Proof. done. Qed.

Lemma classify_setup_run F s :
  ∃ r s0, classify_setup F s = Ok r s0 ∧ flowline_stop_ids s0 = [] ∧
    (∀ k, adj (waterbody_flowline_of s0) k = adj (waterbody_flowline_of s) k) ∧
    (tenha_waterbody_ids s ≠ [] → tenha_waterbody_ids s0 = tenha_waterbody_ids s).
Proof.
  unfold classify_setup. msimpl.
  rewrite (bind_Ok _ _ _ _ _ (ensure_upstream_run s)). msimpl.
  rewrite (bind_Ok _ _ _ _ _ (ensure_downstream_run _)). msimpl.
  set (s1 := ensure_downstream (ensure_upstream s)).
  assert (H1 : ∀ k, adj (waterbody_flowline_of s1) k = adj (waterbody_flowline_of s) k).
  { pose proof (frame_ensure_upstream s) as ((_ & _ & _ & _ & _ & [A _] & _) & _).
    pose proof (frame_ensure_downstream (ensure_upstream s))
      as ((_ & _ & _ & _ & _ & [B _] & _) & _).
    intros k. unfold s1. by rewrite B, A. }
  assert (T1 : tenha_waterbody_ids s1 = tenha_waterbody_ids s).
  { pose proof (frame_ensure_upstream s) as (_ & (_ & _ & A & _) & _).
    pose proof (frame_ensure_downstream (ensure_upstream s)) as (_ & (_ & _ & B & _) & _).
    unfold s1. by rewrite B, A. }
  assert (∃ s2, (if dict_empty (waterbody_flowline s1)
                 then map_flowlines_to_waterbodies;; mret () else mret ()) s1 = Ok () s2
                ∧ (∀ k, adj (waterbody_flowline_of s2) k = adj (waterbody_flowline_of s) k)
                ∧ tenha_waterbody_ids s2 = tenha_waterbody_ids s)
    as (s2 & Hrun2 & H2 & T2).
  { destruct (dict_empty (waterbody_flowline s1)).
    - unfold map_flowlines_to_waterbodies. msimpl. eexists. split; [done|].
      split; [|done]. intros k. rewrite <- H1. by of_eq.
    - msimpl. eauto. }
  rewrite (bind_Ok _ _ _ _ _ Hrun2). msimpl.
  assert (∃ s3, (if list_empty (tenha_waterbody_ids s2)
                 then activate_10ha_lake_stops F;; deactivate_stops else mret ()) s2
                = Ok () s3
                ∧ (∀ k, adj (waterbody_flowline_of s3) k = adj (waterbody_flowline_of s) k)
                ∧ (tenha_waterbody_ids s ≠ [] →
                   tenha_waterbody_ids s3 = tenha_waterbody_ids s))
    as (s3 & Hrun3 & H3 & T3).
  { destruct (tenha_waterbody_ids s2) as [|t0 tl] eqn:Et; cbn [list_empty].
    - destruct (activate_10ha_lake_stops_run F s2) as (ids & sa & Hra & Hn & _).
      rewrite (bind_Ok _ _ _ _ _ Hra). rewrite deactivate_stops_run.
      eexists. split; [done|]. split; [|by rewrite <- T2].
      intros k. rewrite <- H2.
      destruct Hn as (_ & _ & _ & _ & _ & [A _] & _). rewrite <- A. by of_eq.
    - msimpl. eexists. split; [done|]. split; [done|]. intros _. by rewrite <- T2. }
  rewrite (bind_Ok _ _ _ _ _ Hrun3). msimpl.
  destruct (flowline_stop_ids s3) as [|f fl] eqn:E; cbn [list_empty negb when].
  - msimpl. eexists _, _. split; [done|]. split; [done|]. done.
  - rewrite (bind_Ok _ _ _ _ _ (deactivate_stops_run s3)). msimpl.
    eexists _, _. split; [done|]. split; [done|]. split; [|done].
    intros k. rewrite <- H3. by of_eq.
Qed.

Lemma size_zero_empty (X : gset string) : size X = 0 ↔ X = ∅.
Proof. rewrite size_empty_iff. by unfold_leibniz. Qed.

(** The class assigned from two traces. *)
Lemma classify_decide_isolated w tu td s :
  let inside : gset string := pyset (adj (waterbody_flowline s) w) ∪ {[w]} in
  ∃ c s', classify_decide w tu td s = Ok c s' ∧
    (c = Isolated ↔ pyset tu ∖ inside = ∅ ∧ pyset td ∖ inside = ∅).
Proof.
  cbv zeta. unfold classify_decide. msimpl.
  destruct (bool_decide (length tu = 0) && bool_decide (length td = 0)
            && negb (exclude_intermittent_flow s)) eqn:E.
  - msimpl. eexists _, _. split; [done|]. split; [|done]. intros _.
    apply andb_prop in E as [E _]. apply andb_prop in E as [E1 E2].
    apply bool_decide_eq_true in E1, E2.
    destruct tu; [|done]. destruct td; [|done]. set_solver.
  - clear E. pose proof (dd_getitem_fst (waterbody_flowline s) w) as Hfst.
    destruct (dd_getitem (waterbody_flowline s) w) as [inside_ids wf].
    cbn [fst] in Hfst. subst inside_ids. msimpl.
    replace (pyset (adj (waterbody_flowline s) w ++ [w]))
      with (pyset (adj (waterbody_flowline s) w) ∪ {[w]} : gset string).
    2:{ rewrite pyset_app. unfold pyset at 3.
        rewrite list_to_set_cons, list_to_set_nil. by rewrite (right_id_L ∅ (∪)). }
    set (inside := pyset (adj (waterbody_flowline s) w) ∪ {[w]}).
    case_bool_decide as Eu.
    + apply size_zero_empty in Eu. case_bool_decide as Ed.
      * msimpl. eexists _, _. split; [done|]. split; [done|]. intros [_ Hd].
        rewrite Hd, size_empty in Ed. lia.
      * msimpl. eexists _, _. split; [done|]. split; [|done]. intros _.
        split; [done|]. apply size_zero_empty. lia.
    + assert (pyset tu ∖ inside ≠ ∅) by (by rewrite <- size_zero_empty).
      case_bool_decide; case_bool_decide; msimpl; eexists _, _;
        (split; [done|]); (split; [done|]); by intros [? _].
Qed.

Lemma waterbody_flowline_of_nonempty s w :
  w ∈ dom (waterbody_flowline s) → waterbody_flowline_of s = waterbody_flowline s.
Proof.
  intros Hw. rewrite waterbody_flowline_of_eq.
  destruct (dict_empty (waterbody_flowline s)) eqn:E; [|done].
  apply dict_empty_dom in E. set_solver.
Qed.

(** C4: the class is Isolated exactly when both barrier-free traces of the
    waterbody, with the waterbody's id and own flowline ids removed, are
    empty; the intermittent-flow flag of the instance is arbitrary. *)
Theorem classify_isolated_iff F s w :
  ∃ r s0 tu s1 td s2 c s',
    classify_setup F s = Ok r s0 ∧ flowline_stop_ids s0 = [] ∧
    trace_up_from_a_waterbody w s0 = Ok tu s1 ∧
    trace_down_from_a_waterbody w s1 = Ok td s2 ∧
    classify_waterbody_connectivity F w s = Ok c s' ∧
    let inside : gset string := pyset (own_flowlines s w) ∪ {[w]} in
    (c = Isolated ↔ pyset tu ∖ inside = ∅ ∧ pyset td ∖ inside = ∅).
Proof.
  destruct (classify_setup_run F s) as ([[reset rf] rw] & s0 & Hset & Hstops & HW0 & _).
  destruct (trace_up_from_a_waterbody_run w s0) as (tu & s1 & Hup & Hf1 & _).
  destruct (trace_down_from_a_waterbody_run w s1) as (td & s2 & Hdown & Hf2 & Hdom & _).
  destruct (classify_decide_isolated w tu td s2) as (c & s3 & Hdec & Hiff).
  assert (Hown : adj (waterbody_flowline s2) w = own_flowlines s w).
  { unfold own_flowlines. rewrite <- (waterbody_flowline_of_nonempty s2 w Hdom).
    destruct Hf1 as ((_ & _ & _ & _ & _ & [A _] & _) & _).
    destruct Hf2 as ((_ & _ & _ & _ & _ & [B _] & _) & _).
    by rewrite B, A, HW0. }
  rewrite Hown in Hiff.
  assert (∃ s', classify_waterbody_connectivity F w s = Ok c s') as (s' & Hrun).
  { unfold classify_waterbody_connectivity.
    rewrite (bind_Ok _ _ _ _ _ Hset). cbv beta iota.
    rewrite (bind_Ok _ _ _ _ _ Hup), (bind_Ok _ _ _ _ _ Hdown), (bind_Ok _ _ _ _ _ Hdec).
    destruct reset; cbn [when]; msimpl; eauto. }
  exists (reset, rf, rw), s0, tu, s1, td, s2, c, s'. done.
Qed.

(** ** Subregion outlets *)

Lemma for_each_frame {A B} (f : A → M B) :
  (∀ x s, ∃ y s', f x s = Ok y s' ∧ frame s s') →
  ∀ l s, ∃ ys s', for_each f l s = Ok ys s' ∧ frame s s'.
Proof.
  intros Hf l s.
  destruct (for_each_inv f (λ st, frame s st) (λ _ _, True)) with (l := l) (s := s)
    as (ys & s' & Hrun & Hfr & _).
  - intros x st Hst. destruct (Hf x st) as (y & st' & Hy & Hfr).
    exists y, st'. split; [done|]. split; [|done]. eapply frame_trans; eauto.
  - apply frame_refl.
  - eauto.
Qed.

Lemma trace_up_from_a_flowline_frame x b s :
  ∃ R s', trace_up_from_a_flowline x b s = Ok R s' ∧ frame s s'.
Proof. destruct (trace_up_from_a_flowline_run x b s) as (R & s' & ? & ? & _). eauto. Qed.

Lemma trace_up_len_frame (id : string) s :
  ∃ y s', (t ← trace_up_from_a_flowline id true; mret (id, length t)) s = Ok y s'
          ∧ frame s s'.
Proof.
  destruct (trace_up_from_a_flowline_frame id true s) as (R & s' & HR & Hf).
  rewrite (bind_Ok _ _ _ _ _ HR). msimpl. eauto.
Qed.

(** C7, as the code has it: the primary candidates are accepted, and the
    outlets type set to primary, exactly when there is a candidate and the
    number of distinct ids in the waterbody-inclusive upstream traces of the
    candidates is at least half the number of distinct ids recorded as an
    upstream neighbour.  Otherwise the secondary determination runs: it
    either sets the type to secondary or, for frontal drainage, leaves the
    type as it was and returns the primary candidates. *)
Theorem subregion_outlets_primary_iff s outs s' :
  identify_subregion_outlets s = Ok outs s' →
  outlets_type s ≠ Some primary →
  ∃ nets s1,
    for_each (λ o, trace_up_from_a_flowline o true)
      (primary_candidates (upstream_of s)).1.1 (ensure_upstream s) = Ok nets s1 ∧
    (outlets_type s' = Some primary ↔
       (primary_candidates (upstream_of s)).1.1 ≠ [] ∧
       size (primary_candidates (upstream_of s)).1.2 ≤ 2 * size (pyset (concat nets))) ∧
    (outlets_type s' = Some primary → outs = (primary_candidates (upstream_of s)).1.1) ∧
    (outlets_type s' ≠ Some primary →
       outlets_type s' = Some secondary ∨
       (outlets_type s' = outlets_type s ∧ outs = (primary_candidates (upstream_of s)).1.1)) ∧
    outlets s' = outs.
Proof.
  intros Hrun Hnp. unfold identify_subregion_outlets in Hrun. revert Hrun. msimpl.
  rewrite (bind_Ok _ _ _ _ _ (ensure_upstream_run s)). msimpl.
  rewrite ensure_upstream_loaded.
  destruct (primary_candidates (upstream_of s)) as [[cands from_all] downstream_inlets].
  cbn [fst snd].
  destruct (for_each_frame (λ o, trace_up_from_a_flowline o true)
              (λ x st, trace_up_from_a_flowline_frame x true st) cands (ensure_upstream s))
    as (nets & s1 & Hnets & Hf1).
  rewrite (bind_Ok _ _ _ _ _ Hnets).
  assert (Hot1 : outlets_type s1 = outlets_type s).
  { destruct Hf1 as (_ & (_ & _ & _ & _ & _ & _ & A) & _).
    pose proof (frame_ensure_upstream s) as (_ & (_ & _ & _ & _ & _ & _ & B) & _).
    by rewrite A, B. }
  unfold fraction_below_half. case_bool_decide as Hz; [by msimpl|]. msimpl.
  intros Hrun. exists nets, s1. split; [done|].
  destruct (list_empty cands || bool_decide (2 * size (pyset (concat nets)) < size from_all))
    eqn:Hbr.
  - (* secondary determination *)
    assert (Hcond : ¬ (cands ≠ [] ∧ size from_all ≤ 2 * size (pyset (concat nets)))).
    { intros [Hc Hs]. apply orb_prop in Hbr as [Hbr|Hbr].
      - by destruct cands.
      - apply bool_decide_eq_true in Hbr. lia. }
    revert Hrun. msimpl.
    destruct (dd_getitems (upstream s1) (pylist (dom (upstream s1)))) as [next_up up] eqn:E.
    msimpl. set (s2 := set_upstream up s1).
    match goal with |- context [if ?b then _ else _] => destruct b eqn:Hfr end.
    + (* frontal drainage *)
      msimpl. destruct (dd_getitem (upstream s2) "0") as [z up'] eqn:E0. msimpl.
      intros [= <- <-]. cbn. rewrite Hot1.
      split; [split; [done|by intros ?]|]. split; [done|]. split; [auto|done].
    + destruct (for_each_frame
                  (λ id, t ← trace_up_from_a_flowline id true; mret (id, length t))
                  trace_up_len_frame (pylist (dom (upstream s1) ∖ pyset (concat next_up))) s2)
        as (sizes & s3 & Hsizes & Hf3).
      msimpl. rewrite (bind_Ok _ _ _ _ _ Hsizes).
      unfold py_max. destruct (sizes.*2) as [|n ns]; [by msimpl|]. msimpl.
      intros [= <- <-]. cbn.
      split; [split; [done|by intros ?]|]. split; [done|]. split; [auto|done].
  - (* the primary candidates are accepted *)
    revert Hrun. msimpl. intros [= <- <-]. cbn.
    apply orb_false_elim in Hbr as [Hc Hs]. apply bool_decide_eq_false in Hs.
    split; [split; [intros _|done]|].
    + split; [by destruct cands|lia].
    + split; [done|]. split; [by intros ?|done].
Qed.

Lemma subregion_outlets_primary_iff_witness :
  ∃ outs s' nets s1,
    identify_subregion_outlets three_sinks = Ok outs s' ∧
    for_each (λ o, trace_up_from_a_flowline o true)
      (primary_candidates (upstream_of three_sinks)).1.1 (ensure_upstream three_sinks)
    = Ok nets s1 ∧
    (outlets_type s' = Some primary ↔
       (primary_candidates (upstream_of three_sinks)).1.1 ≠ [] ∧
       size (primary_candidates (upstream_of three_sinks)).1.2
       ≤ 2 * size (pyset (concat nets))).
Proof.
  assert (∃ outs s', identify_subregion_outlets three_sinks = Ok outs s')
    as (outs & s' & Hrun) by (eexists _, _; vm_compute; reflexivity).
  assert (Hnp : outlets_type three_sinks ≠ Some primary) by discriminate.
  destruct (subregion_outlets_primary_iff three_sinks outs s' Hrun Hnp)
    as (nets & s1 & Hnets & Hiff & _).
  exists outs, s', nets, s1. exact (conj Hrun (conj Hnets Hiff)).
Defined.

(** One segment flowing into three sinks: the primary candidates are
    accepted although the union {A} of their traces covers none of the three
    segments that have a recorded upstream neighbour, and has fewer than
    half as many ids. *)
Lemma subregion_outlets_counterexample :
  ∃ outs s' nets s1,
    identify_subregion_outlets three_sinks = Ok outs s' ∧
    outlets_type s' = Some primary ∧
    for_each (λ o, trace_up_from_a_flowline o true)
      (primary_candidates (upstream_of three_sinks)).1.1 (ensure_upstream three_sinks)
    = Ok nets s1 ∧
    elements (pyset (concat nets)) = ["A"] ∧
    elements (has_neighbor (upstream_of three_sinks)) = ["N3"; "N1"; "N2"] ∧
    ¬ (size (has_neighbor (upstream_of three_sinks))
       ≤ 2 * size (pyset (concat nets) ∩ has_neighbor (upstream_of three_sinks))) ∧
    ¬ (size (has_neighbor (upstream_of three_sinks)) ≤ 2 * size (pyset (concat nets))).
Proof.
  eexists _, _, _, _. split; [vm_compute; reflexivity|].
  split; [vm_compute; reflexivity|]. split; [vm_compute; reflexivity|].
  split; [vm_compute; reflexivity|]. split; [vm_compute; reflexivity|].
  split; vm_compute; lia.
Qed.

(** C9 at two instances of the two-flowline lake W.  With the maps loaded
    and the barriers active, the call returns with the barriers restored but
    with W appended to the list the waterbody-to-flowlines dict holds for W.
    On a fresh instance whose barriers the caller set, the call returns with
    the barrier lists emptied. *)
Lemma classify_changes_the_instance :
  (∃ c s', classify_waterbody_connectivity [39004%Z] "W" two_flowline_lake_loaded = Ok c s' ∧
     flowline_stop_ids two_flowline_lake_loaded = ["L1"; "L2"] ∧
     flowline_stop_ids s' = ["L1"; "L2"] ∧
     waterbody_stop_ids s' = waterbody_stop_ids two_flowline_lake_loaded ∧
     waterbody_flowline two_flowline_lake_loaded !! "W" = Some ["L1"; "L2"] ∧
     waterbody_flowline s' !! "W" = Some ["L1"; "L2"; "W"]) ∧
  (∃ c s', classify_waterbody_connectivity [39004%Z] "W" two_flowline_lake_stopped = Ok c s' ∧
     flowline_stop_ids two_flowline_lake_stopped = ["L1"; "L2"] ∧
     waterbody_stop_ids two_flowline_lake_stopped = ["W"] ∧
     flowline_stop_ids s' = [] ∧
     waterbody_stop_ids s' = []).
Proof.
  split.
  - eexists _, _. split; [vm_compute; reflexivity|]. repeat split; vm_compute; reflexivity.
  - eexists _, _. split; [vm_compute; reflexivity|]. repeat split; vm_compute; reflexivity.
Qed.

(** ** Batch traces *)

Lemma dict_of_pairs_snoc {V} (l : list (string * V)) k v :
  dict_of_pairs (l ++ [(k, v)]) = <[k := v]> (dict_of_pairs l).
Proof. unfold dict_of_pairs. by rewrite foldl_snoc. Qed.

Lemma dict_of_pairs_lookup_Some {V} (l : list (string * V)) k v :
  dict_of_pairs l !! k = Some v → (k, v) ∈ l.
Proof.
  induction l as [|[k' v'] l IH] using rev_ind; [done|].
  rewrite dict_of_pairs_snoc, elem_of_app. cbn.
  destruct (decide (k' = k)) as [->|Hne].
  - rewrite lookup_insert_eq. intros [= <-]. right. apply list_elem_of_here.
  - rewrite lookup_insert_ne by done. auto.
Qed.

Lemma dict_of_pairs_dom {V} (l : list (string * V)) :
  dom (dict_of_pairs l) = list_to_set l.*1.
Proof.
  induction l as [|[k' v'] l IH] using rev_ind; [done|].
  rewrite dict_of_pairs_snoc, dom_insert_L, IH, fmap_app, list_to_set_app_L. cbn.
  set_solver.
Qed.

Lemma dict_of_pairs_lookup_unique {V} (l : list (string * V)) k v :
  (k, v) ∈ l → (∀ v', (k, v') ∈ l → v' = v) → dict_of_pairs l !! k = Some v.
Proof.
  intros Hin Huniq.
  assert (Hk : k ∈ dom (dict_of_pairs l)).
  { rewrite dict_of_pairs_dom. apply elem_of_list_to_set, list_elem_of_fmap.
    by exists (k, v). }
  apply elem_of_dom in Hk as [v' Hv']. rewrite Hv'. f_equal.
  apply Huniq. by apply dict_of_pairs_lookup_Some.
Qed.

(** An invariant that each call keeps is kept by the comprehension. *)
Lemma for_each_keeps {A B} (f : A → M B) (I : NHDNetwork → Prop) :
  (∀ x s y s', I s → f x s = Ok y s' → I s') →
  ∀ l s ys s', I s → for_each f l s = Ok ys s' → I s'.
Proof.
  intros Hf l. induction l as [|x l IH]; intros s ys s' Hs; cbn [for_each].
  - by intros [= <- <-].
  - intros Hrun. apply bind_inv in Hrun as (y & s1 & Hy & Hrun).
    apply bind_inv in Hrun as (ys' & s2 & Hys & Hrun). injection Hrun as <- <-.
    eapply IH; [|exact Hys]. eapply Hf; eauto.
Qed.

Lemma trace_up_from_waterbody_starts_run s :
  waterbody_start_ids s ≠ [] →
  ∃ ups s', trace_up_from_waterbody_starts s = Ok ups s' ∧ frame s s' ∧
    dom ups = list_to_set (waterbody_start_ids s) ∧
    ∀ lake T, ups !! lake = Some T →
      T = pylist (pyset T) ∧
      ∀ y, y ∈ T ↔
           in_waterbody_trace (adj (upstream_of s)) (flowline_waterbody_of s)
             (adj (waterbody_flowline_of s)) (flowline_stop_ids s)
             (waterbody_stop_ids s) lake y.
Proof.
  intros Hne. unfold trace_up_from_waterbody_starts. msimpl.
  destruct (waterbody_start_ids s) as [|l0 ls] eqn:El; [done|]. cbn [list_empty negb].
  rewrite <- El. clear Hne.
  destruct (for_each_inv (λ id, t ← trace_up_from_a_waterbody id; mret (id, t))
              (λ st, frame s st)
              (λ lake kt, kt.1 = lake ∧ kt.2 = pylist (pyset kt.2) ∧
                 ∀ y, y ∈ kt.2 ↔
                   in_waterbody_trace (adj (upstream_of s)) (flowline_waterbody_of s)
                     (adj (waterbody_flowline_of s)) (flowline_stop_ids s)
                     (waterbody_stop_ids s) lake y))
    with (l := waterbody_start_ids s) (s := s) as (res & s' & Hrun & Hf & HQ).
  { intros lake st Hst.
    destruct (trace_up_from_a_waterbody_run lake st) as (T & st' & HT & Hf & _ & Hc & Hin).
    rewrite (bind_Ok _ _ _ _ _ HT). msimpl. eexists _, _. split; [done|].
    split; [eapply frame_trans; eauto|]. cbn [fst snd]. split; [done|]. split; [done|].
    intros y. rewrite Hin.
    destruct Hst as ((_ & _ & _ & [Hu _] & _ & [Hw _] & Hfw) & _ & (Hs1 & Hs2) & _).
    rewrite Hfw, Hs1, Hs2. by apply in_waterbody_trace_ext. }
  { apply frame_refl. }
  rewrite (bind_Ok _ _ _ _ _ Hrun). msimpl. eexists _, _. split; [done|].
  split; [done|]. split.
  - rewrite dict_of_pairs_dom. f_equal.
    clear -HQ. induction HQ as [|x [k t] l res [Hk _] _ IH]; [done|].
    cbn in *. by rewrite Hk, IH.
  - intros lake T HT. apply dict_of_pairs_lookup_Some in HT.
    destruct (Forall2_elem_of_r _ _ _ _ HQ HT) as (x & _ & Hx1 & Hx2 & Hx3).
    cbn in *. subst x. done.
Qed.

(** ** Erasable regions: the set math *)

Lemma for_each_Forall2 {A B} (f : A → M B) (Q : A → B → Prop) :
  (∀ x s y s', f x s = Ok y s' → Q x y) →
  ∀ l s ys s', for_each f l s = Ok ys s' → Forall2 Q l ys.
Proof.
  intros Hf l. induction l as [|x l IH]; intros s ys s'; cbn [for_each].
  - intros [= <- <-]. constructor.
  - intros Hrun. apply bind_inv in Hrun as (y & s1 & Hy & Hrun).
    apply bind_inv in Hrun as (ys' & s2 & Hys & Hrun). injection Hrun as <- <-.
    constructor; eauto.
Qed.

Lemma dict_getitem_inv {V} (d : gmap string V) k s v s' :
  dict_getitem d k s = Ok v s' → d !! k = Some v ∧ s' = s.
Proof.
  unfold dict_getitem. destruct (d !! k); [|done]. by intros [= <- <-].
Qed.

Lemma erasable_loop_lookup (D U I : gmap string (gset string))
    (E : gset string → gset string → gset string → gset string) focal s res s' lake :
  for_each (λ lake_id,
      down ← dict_getitem D lake_id;
      up ← dict_getitem U lake_id;
      il ← dict_getitem I lake_id;
      mret (lake_id, E (down ∖ chars lake_id) (up ∖ chars lake_id) (il ∖ chars lake_id)))
    focal s = Ok res s' →
  lake ∈ focal →
  ∃ down up il, D !! lake = Some down ∧ U !! lake = Some up ∧ I !! lake = Some il ∧
    dict_of_pairs res !! lake
    = Some (E (down ∖ chars lake) (up ∖ chars lake) (il ∖ chars lake)).
Proof.
  intros Hrun Hlake.
  apply (for_each_Forall2 _
           (λ lake_id kv, ∃ down up il,
              D !! lake_id = Some down ∧ U !! lake_id = Some up ∧ I !! lake_id = Some il ∧
              kv = (lake_id, E (down ∖ chars lake_id) (up ∖ chars lake_id)
                               (il ∖ chars lake_id)))) in Hrun.
  - destruct (Forall2_elem_of_l _ _ _ _ Hrun Hlake) as (kv & Hkv & down & up & il & HD & HU & HI & ->).
    exists down, up, il. split; [done|]. split; [done|]. split; [done|].
    apply dict_of_pairs_lookup_unique; [done|].
    intros v' Hv'.
    destruct (Forall2_elem_of_r _ _ _ _ Hrun Hv')
      as (x & _ & down' & up' & il' & HD' & HU' & HI' & Heq).
    injection Heq as <- ->. congruence.
  - intros x st y st' Hx.
    apply bind_inv in Hx as (down & s1 & Hd & Hx). apply dict_getitem_inv in Hd as [Hd ->].
    apply bind_inv in Hx as (up & s2 & Hu & Hx). apply dict_getitem_inv in Hu as [Hu ->].
    apply bind_inv in Hx as (il & s3 & Hi & Hx). apply dict_getitem_inv in Hi as [Hi ->].
    injection Hx as <- <-. eauto 10.
Qed.

Lemma erasable_of_small down up il tt td iso :
  size up < 2 → erasable_of down up il tt td iso = ∅.
Proof. intros H. unfold erasable_of. by rewrite bool_decide_eq_true_2. Qed.

(** An id of the focal lake's interlake trace is never erased, unless it is
    the id of an isolated 10 ha lake. *)
Lemma erasable_of_avoids down up il tt td iso o :
  o ∈ il → o ∉ iso → o ∉ erasable_of down up il tt td iso.
Proof.
  intros Hil Hiso. unfold erasable_of. case_bool_decide; [set_solver|].
  rewrite !elem_of_union. intros [[?|Hfull]|Hpart]; [done| |].
  - apply elem_of_union_list in Hfull as (X & HX & Ho).
    apply list_elem_of_fmap in HX as ([k v] & -> & Hkv).
    apply elem_of_map_to_list, map_lookup_filter_Some in Hkv as [_ Hdisj].
    cbn in *. set_solver.
  - apply elem_of_union_list in Hpart as (X & HX & Ho).
    apply list_elem_of_fmap in HX as ([k v] & -> & Hkv).
    apply elem_of_map_to_list, lookup_fmap_Some in Hkv as (v0 & <- & _).
    cbn in *. set_solver.
Qed.

(** ** Erasable regions: the run *)

Lemma define_interlake_erasable_inv F s d s' :
  define_interlake_erasable F s = Ok d s' →
  waterbody_start_ids s ≠ [] ∧
  ∃ ups sB downs sC ids sD inter sE conn sG fl sH nets sI tt td iso res sK,
    trace_up_from_waterbody_starts
      (set_flowline_stop_ids [] (set_waterbody_stop_ids [] s)) = Ok ups sB ∧
    for_each (λ k, t ← trace_down_from_a_waterbody k; mret (k, pyset t))
      (waterbody_start_ids s) sB = Ok downs sC ∧
    activate_10ha_lake_stops F sC = Ok ids sD ∧
    trace_up_from_waterbody_starts sD = Ok inter sE ∧
    for_each (λ id, c ← classify_waterbody_connectivity F id; mret (id, c))
      (tenha_waterbody_ids sE) (set_flowline_stop_ids [] (set_waterbody_stop_ids [] sE))
    = Ok conn sG ∧
    set_start_ids (tenha_waterbody_ids sG) sG = Ok fl sH ∧
    trace_up_from_waterbody_starts sH = Ok nets sI ∧
    iso ⊆ dom nets ∧
    for_each (λ lake_id,
        down ← dict_getitem (dict_of_pairs downs) lake_id;
        up ← dict_getitem (pyset <$> ups) lake_id;
        il ← dict_getitem (pyset <$> inter) lake_id;
        mret (lake_id, erasable_of (down ∖ chars lake_id) (up ∖ chars lake_id)
                         (il ∖ chars lake_id) tt td iso))
      (waterbody_start_ids s) sK = Ok res s' ∧
    d = dict_of_pairs res.
Proof.
  unfold define_interlake_erasable. msimpl.
  destruct (waterbody_start_ids s) as [|l0 ls] eqn:El; [done|]. cbn [list_empty].
  rewrite <- El. intros H. split; [by rewrite El|]. revert H.
  rewrite (bind_Ok _ _ _ _ _ (deactivate_stops_run s)).
  intros H. apply bind_inv in H as (ups & sB & Hups & H).
  apply bind_inv in H as (downs & sC & Hdowns & H).
  apply bind_inv in H as (ids & sD & Hact & H).
  apply bind_inv in H as (inter & sE & Hinter & H).
  revert H. rewrite (bind_Ok _ _ _ _ _ (deactivate_stops_run sE)). msimpl.
  intros H. apply bind_inv in H as (conn & sG & Hconn & H).
  revert H. msimpl.
  intros H. apply bind_inv in H as (fl & sH & Hstart & H).
  apply bind_inv in H as (nets & sI & Hnets & H).
  apply bind_inv in H as ([] & sI' & Hkeys & H).
  apply bind_inv in H as (hu4 & sJ & Hhu4 & H).
  revert H. rewrite (bind_Ok _ _ _ _ _ (deactivate_stops_run sJ)).
  intros H. apply bind_inv in H as (res & sK' & Hres & H).
  injection H as <- <-.
  eexists ups, sB, downs, sC, ids, sD, inter, sE, conn, sG, fl, sH, nets, sI, _, _, _, res, _.
  split; [done|]. split; [done|]. split; [done|]. split; [done|]. split; [exact Hconn|].
  split; [done|]. split; [done|]. split; [|split; [exact Hres|done]].
  rewrite <- (dom_fmap_L pyset nets). apply dom_filter_subseteq.
Qed.

Lemma deactivated_views s :
  let s0 := set_flowline_stop_ids [] (set_waterbody_stop_ids [] s) in
  upstream_of s0 = upstream_of s ∧ downstream_of s0 = downstream_of s ∧
  waterbody_flowline_of s0 = waterbody_flowline_of s ∧
  flowline_waterbody_of s0 = flowline_waterbody_of s.
Proof.
  cbv zeta. rewrite !upstream_of_eq, !downstream_of_eq, !waterbody_flowline_of_eq,
    !flowline_waterbody_of_eq. done.
Qed.

(** The barrier-free batch trace at the head of [define_interlake_erasable]. *)
Lemma full_upstream_traces_run s :
  waterbody_start_ids s ≠ [] →
  ∃ ups sB, (deactivate_stops;; trace_up_from_waterbody_starts) s = Ok ups sB ∧
    trace_up_from_waterbody_starts (set_flowline_stop_ids [] (set_waterbody_stop_ids [] s))
    = Ok ups sB ∧
    frame (set_flowline_stop_ids [] (set_waterbody_stop_ids [] s)) sB ∧
    dom ups = list_to_set (waterbody_start_ids s) ∧
    ∀ lake T, ups !! lake = Some T →
      ∀ y, y ∈ T ↔
           in_waterbody_trace (adj (upstream_of s)) (flowline_waterbody_of s)
             (adj (waterbody_flowline_of s)) [] [] lake y.
Proof.
  intros Hne. rewrite (bind_Ok _ _ _ _ _ (deactivate_stops_run s)).
  destruct (trace_up_from_waterbody_starts_run
              (set_flowline_stop_ids [] (set_waterbody_stop_ids [] s)) Hne)
    as (ups & sB & Hrun & Hf & Hdom & Hspec).
  exists ups, sB. split; [done|]. split; [done|]. split; [done|]. split; [done|].
  intros lake T HT. destruct (Hspec lake T HT) as [_ Hin].
  destruct (deactivated_views s) as (-> & _ & -> & ->) in Hin. done.
Qed.

(** C8: a focal lake whose full, barrier-free upstream trace has fewer than
    two elements gets the empty erasable set, whatever the other lakes
    are. *)
Theorem erasable_empty_when_trace_small F s d s' :
  define_interlake_erasable F s = Ok d s' →
  ∃ ups sB, (deactivate_stops;; trace_up_from_waterbody_starts) s = Ok ups sB ∧
    dom ups = list_to_set (waterbody_start_ids s) ∧
    (∀ lake T, ups !! lake = Some T →
       ∀ y, y ∈ T ↔
            in_waterbody_trace (adj (upstream_of s)) (flowline_waterbody_of s)
              (adj (waterbody_flowline_of s)) [] [] lake y) ∧
    (∀ lake T, lake ∈ waterbody_start_ids s → ups !! lake = Some T →
       length T < 2 → d !! lake = Some ∅).
Proof.
  intros Hrun. apply define_interlake_erasable_inv in Hrun
    as (Hne & ups & sB & downs & sC & ids & sD & inter & sE & conn & sG & fl & sH & nets
        & sI & tt & td & iso & res & sK & Hups & _ & _ & _ & _ & _ & _ & _ & Hres & ->).
  destruct (full_upstream_traces_run s Hne) as (ups' & sB' & Hfull & Hups' & _ & Hdom & Hspec).
  rewrite Hups in Hups'. injection Hups' as <- <-.
  exists ups, sB. split; [done|]. split; [done|]. split; [done|].
  intros lake T Hlake HT Hlen.
  destruct (erasable_loop_lookup _ _ _ (λ a b c, erasable_of a b c tt td iso)
              _ _ _ _ lake Hres Hlake) as (down & up & il & _ & HU & _ & ->).
  rewrite lookup_fmap, HT in HU. injection HU as <-.
  f_equal. apply erasable_of_small.
  pose proof (size_pyset_le T).
  assert (size (pyset T ∖ chars lake) ≤ size (pyset T)) by (apply subseteq_size; set_solver).
  lia.
Qed.

Lemma erasable_empty_when_trace_small_witness :
  ∃ d s', define_interlake_erasable [39004%Z] two_lakes_focal = Ok d s' ∧
          d !! "I1" = Some ∅.
Proof.
  assert (∃ d s', define_interlake_erasable [39004%Z] two_lakes_focal = Ok d s')
    as (d & s' & Hrun) by (eexists _, _; vm_compute; reflexivity).
  exists d, s'. split; [exact Hrun|].
  destruct (erasable_empty_when_trace_small _ _ _ _ Hrun) as (ups & sB & Hups & _ & _ & Hsmall).
  assert (∃ ups0 sB0, (deactivate_stops;; trace_up_from_waterbody_starts) two_lakes_focal
                      = Ok ups0 sB0 ∧ ups0 !! "I1" = Some [])
    as (ups0 & sB0 & Hups0 & HI1)
    by (eexists _, _; split; vm_compute; reflexivity).
  rewrite Hups in Hups0. injection Hups0 as <- <-.
  apply (Hsmall "I1" []); [|exact HI1|cbn; lia].
  vm_compute. apply list_elem_of_further, list_elem_of_here.
Defined.
